(** * DebugViewModel: the view-model of one debug view panel

    Shallow embedding of
    [packages/debug/src/browser/view/debug-view-model.ts].

    The class keeps an insertion-ordered [Set] of session objects, an array of
    watch expressions and a promise chain that serialises the refreshes of
    the watch expressions.  Objects are compared by identity in the source
    ([Set.has], [===], [indexOf]), so an object is represented here by its
    address and its fields are read through a heap.  A method is a function
    from the state of the view-model to a result, the next state and the
    list of effects it performed, in order: signals fired on the three
    emitters, requests sent to the session manager, evaluations started. *)

From stdpp Require Import base option list strings gmap.

Set Default Proof Using "Type".

(** ** Object identities *)

Inductive SessionRef := SessionAt (addr : nat).
Inductive ThreadRef := ThreadAt (addr : nat).
Inductive FrameRef := FrameAt (addr : nat).
Inductive WatchRef := WatchAt (addr : nat).
Inductive OptionsRef := OptionsAt (addr : nat).

#[global] Instance SessionRef_eq_dec : EqDecision SessionRef.
Proof. solve_decision. Defined.
#[global] Instance ThreadRef_eq_dec : EqDecision ThreadRef.
Proof. solve_decision. Defined.
#[global] Instance FrameRef_eq_dec : EqDecision FrameRef.
Proof. solve_decision. Defined.
#[global] Instance WatchRef_eq_dec : EqDecision WatchRef.
Proof. solve_decision. Defined.
#[global] Instance OptionsRef_eq_dec : EqDecision OptionsRef.
Proof. solve_decision. Defined.

Definition session_addr (s : SessionRef) : nat := let 'SessionAt a := s in a.

#[global] Instance SessionRef_countable : Countable SessionRef.
Proof. apply (inj_countable' session_addr SessionAt). by intros []. Defined.

(** ** JavaScript values *)

(** Reading a member off [undefined] raises a TypeError; every other
    expression of the getters completes normally. *)
Inductive Completion (A : Type) : Type :=
| Normal (a : A)
| TypeError.
Arguments Normal {A} a.
Arguments TypeError {A}.

Definition member {O A : Type} (o : option O) (field : O -> A) : Completion A :=
  match o with
  | Some x => Normal (field x)
  | None => TypeError
  end.

Definition completion_bind {A B : Type} (c : Completion A) (k : A -> Completion B)
  : Completion B :=
  match c with
  | Normal a => k a
  | TypeError => TypeError
  end.

(** [a && b] where [a] is an object or [undefined]: [b] is evaluated only
    when [a] is an object, otherwise the value is [a], that is [undefined]. *)
Definition js_and {O B : Type} (a : option O) (b : Completion (option B))
  : Completion (option B) :=
  match a with
  | Some _ => b
  | None => Normal None
  end.

(** [v || d]: [d] when [v] is [undefined] or a falsy value. *)
Definition js_or {B : Type} (truthy : B -> bool) (v : option B) (d : B) : B :=
  match v with
  | Some x => if truthy x then x else d
  | None => d
  end.

(** A string is truthy when it is not empty. *)
Definition truthy_string (s : string) : bool :=
  match s with
  | EmptyString => false
  | String _ _ => true
  end.

(** ** Collaborators *)

(** The enum [DebugState] is imported from [../debug-session].  The getter
    [state] uses its member [Inactive] and the truthiness of a member. *)
Class DebugStateEnum (DebugState : Type) := {
  Inactive : DebugState;
  truthy_state : DebugState -> bool
}.

Module DebugSession.
(** The members of a session object that the view-model reads. *)
Record t {DebugState : Type} := Build {
  id : string;
  label : string;
  state : DebugState;
  options : OptionsRef;
  currentThread : option ThreadRef
}.
Arguments t : clear implicits.
End DebugSession.

Module DebugThread.
Record t := Build { currentFrame : option FrameRef }.
End DebugThread.

(** The objects behind the references, at the time of a call. *)
Record Heap {DebugState : Type} := {
  session_at : SessionRef -> DebugSession.t DebugState;
  thread_at : ThreadRef -> DebugThread.t
}.
Arguments Heap : clear implicits.

Module Manager.
(** The session manager: its active session, and what [start] and
    [restart] resolve to. *)
Record t := Build {
  currentSession : option SessionRef;
  start : OptionsRef -> option SessionRef;
  restart : SessionRef -> SessionRef
}.
End Manager.

(** ** Effects *)

Inductive Effect :=
| DidChange                                (* onDidChangeEmitter.fire *)
| DidChangeBreakpoints (uri : string)      (* onDidChangeBreakpointsEmitter.fire *)
| DidChangeWatchExpressions                (* onDidChangeWatchExpressionsEmitter.fire *)
| RefreshRequested                         (* a call of the debounced refreshWatchExpressions *)
| ManagerStart (options : OptionsRef)      (* manager.start(options) *)
| ManagerRestart (session : SessionRef)    (* manager.restart(session) *)
| Evaluate (w : WatchRef)                  (* watchExpression.evaluate() *)
| ConsoleError (e : string)                (* console.error(..., e) *)
| CycleBegin                               (* the body of a refresh starts *)
| CycleEnd.                                (* the body of a refresh returns *)

#[global] Instance Effect_eq_dec : EqDecision Effect.
Proof. solve_decision. Defined.

(** How often the effect [e] occurs in [out]. *)
Definition occurrences (e : Effect) (out : list Effect) : nat :=
  length (filter (λ x, x = e) out).
Arguments occurrences : simpl never.

(** ** An insertion-ordered Set *)

Section OrderedSet.
Context {A : Type} `{EqDecision A}.

Definition set_has (x : A) (l : list A) : bool := bool_decide (x ∈ l).

(** [Set.prototype.add]: a new value goes last, a present one stays where it is. *)
Definition set_add (x : A) (l : list A) : list A :=
  if set_has x l then l else l ++ [x].

(** [Set.prototype.delete]: the value is taken out, the others keep their
    order; the result tells whether it was there. *)
Definition set_delete (x : A) (l : list A) : list A * bool :=
  (filter (λ y, y ≠ x) l, set_has x l).

(** [values().next().value] *)
Definition set_first (l : list A) : option A := head l.
End OrderedSet.

(** ** The view-model *)

Module DebugViewModel.

(** The promise chain [refreshWatchExpressionsQueue].  [running] is [None]
    when the last promise of the chain is settled; otherwise the body of a
    refresh is suspended at its [await] and [running] holds the next index
    of the array iterator of its [for ... of] loop.  [pending] counts the
    bodies chained behind it by [then]. *)
Record RefreshQueue := {
  running : option nat;
  pending : nat
}.

Record t := Build {
  _sessions : list SessionRef;
  _watchExpressions : list WatchRef;
  refreshWatchExpressionsQueue : RefreshQueue
}.

Definition with_sessions (l : list SessionRef) (vm : t) : t :=
  {| _sessions := l;
     _watchExpressions := _watchExpressions vm;
     refreshWatchExpressionsQueue := refreshWatchExpressionsQueue vm |}.

Definition with_watchExpressions (l : list WatchRef) (vm : t) : t :=
  {| _sessions := _sessions vm;
     _watchExpressions := l;
     refreshWatchExpressionsQueue := refreshWatchExpressionsQueue vm |}.

Definition with_queue (q : RefreshQueue) (vm : t) : t :=
  {| _sessions := _sessions vm;
     _watchExpressions := _watchExpressions vm;
     refreshWatchExpressionsQueue := q |}.

(** *** Methods as state transformers with an effect log *)

Definition M (A : Type) : Type := t -> A * t * list Effect.

Definition ret {A : Type} (a : A) : M A := λ vm, (a, vm, []).

Definition bind {A B : Type} (m : M A) (k : A -> M B) : M B :=
  λ vm, let '(a, vm1, out1) := m vm in
        let '(b, vm2, out2) := k a vm1 in
        (b, vm2, out1 ++ out2).

Definition this : M t := λ vm, (vm, vm, []).
Definition perform (e : Effect) : M unit := λ vm, (tt, vm, [e]).

Definition result {A : Type} (r : A * t * list Effect) : A := r.1.1.
Definition after {A : Type} (r : A * t * list Effect) : t := r.1.2.
Definition effects {A : Type} (r : A * t * list Effect) : list Effect := r.2.

Declare Scope vm_scope.
Delimit Scope vm_scope with vm.
Notation "x ← m ; k" := (bind m (λ x, k))
  (at level 20, m at level 100, k at level 200, only parsing) : vm_scope.
Notation "m ;; k" := (bind m (λ _, k))
  (at level 100, k at level 200, only parsing, right associativity) : vm_scope.
Local Open Scope vm_scope.

Definition fireDidChange : M unit := perform DidChange.
Definition fireDidChangeBreakpoints (uri : string) : M unit :=
  perform (DidChangeBreakpoints uri).
Definition fireDidChangeWatchExpressions : M unit :=
  perform DidChangeWatchExpressions.

(** *** Session membership *)

Definition sessions (vm : t) : list SessionRef := _sessions vm.
Definition sessionCount (vm : t) : nat := length (_sessions vm).

Definition sessions_add (session : SessionRef) : M unit :=
  λ vm, (tt, with_sessions (set_add session (_sessions vm)) vm, []).

Definition sessions_delete (session : SessionRef) : M bool :=
  λ vm, let '(l, removed) := set_delete session (_sessions vm) in
        (removed, with_sessions l vm, []).

Definition push (session : SessionRef) : M unit :=
  vm ← this;
  if set_has session (_sessions vm) then ret tt
  else sessions_add session;; fireDidChange.

Definition delete (session : SessionRef) : M bool :=
  removed ← sessions_delete session;
  if removed then fireDidChange;; ret true
  else ret false.

Definition session (vm : t) : option SessionRef := set_first (sessions vm).

Definition id {DebugState : Type} (h : Heap DebugState) (vm : t) : Completion string :=
  completion_bind
    (js_and (session vm)
       (completion_bind (member (session vm) (λ s, DebugSession.id (session_at h s)))
          (λ v, Normal (Some v))))
    (λ v, Normal (js_or truthy_string v "-1")).

Definition label {DebugState : Type} (h : Heap DebugState) (vm : t) : Completion string :=
  completion_bind
    (js_and (session vm)
       (completion_bind (member (session vm) (λ s, DebugSession.label (session_at h s)))
          (λ v, Normal (Some v))))
    (λ v, Normal (js_or truthy_string v "Unknown Session")).

Definition has (session : option SessionRef) (vm : t) : bool :=
  match session with
  | Some s => set_has s (_sessions vm)
  | None => false
  end.

(** *** Current-session resolution *)

Definition currentSession (manager : Manager.t) (vm : t) : option SessionRef :=
  let currentSession := Manager.currentSession manager in
  match (if has currentSession vm then currentSession else None) with
  | Some s => Some s
  | None => session vm
  end.

Definition state {DebugState : Type} `{!DebugStateEnum DebugState}
    (h : Heap DebugState) (manager : Manager.t) (vm : t) : Completion DebugState :=
  let currentSession := currentSession manager vm in
  completion_bind
    (js_and currentSession
       (completion_bind
          (member currentSession (λ s, DebugSession.state (session_at h s)))
          (λ v, Normal (Some v))))
    (λ v, Normal (js_or truthy_state v Inactive)).

Definition currentThread {DebugState : Type}
    (h : Heap DebugState) (manager : Manager.t) (vm : t) : Completion (option ThreadRef) :=
  let currentSession := currentSession manager vm in
  js_and currentSession
    (member currentSession (λ s, DebugSession.currentThread (session_at h s))).

Definition currentFrame {DebugState : Type}
    (h : Heap DebugState) (manager : Manager.t) (vm : t) : Completion (option FrameRef) :=
  completion_bind (currentThread h manager vm) (λ currentThread,
    js_and currentThread
      (member currentThread (λ th, DebugThread.currentFrame (thread_at h th)))).

(** *** Lifecycle wiring: [init] and the three handlers it subscribes *)

Definition init (options_session : option SessionRef) : M unit :=
  match options_session with
  | Some s => push s
  | None => ret tt
  end.

Definition onDidChangeActiveDebugSession (previous current : option SessionRef) : M unit :=
  vm ← this;
  if has previous vm && negb (has current vm) then fireDidChange
  else ret tt.

Definition onDidChange (current : option SessionRef) : M unit :=
  vm ← this;
  if negb (bool_decide (is_Some current)) || has current vm
  then perform RefreshRequested;; fireDidChange
  else ret tt.

Definition onDidChangeBreakpoints (manager : Manager.t)
    (session : option SessionRef) (uri : string) : M unit :=
  vm ← this;
  if negb (bool_decide (is_Some session))
     || bool_decide (session = currentSession manager vm)
  then fireDidChangeBreakpoints uri
  else ret tt.

(** *** Session restart and relaunch

    [start] and [restart] are suspended once, at the [await] of the request
    to the manager.  The part after the [await] is a definition of its own,
    run on the state the view-model has when the request is answered. *)

Definition start_answered (session : SessionRef) (newSession : option SessionRef)
  : M unit :=
  match newSession with
  | Some newSession =>
      sessions_delete session;;
      sessions_add newSession;;
      fireDidChange
  | None => ret tt
  end.

Definition start {DebugState : Type} (h : Heap DebugState) (manager : Manager.t)
  : M unit :=
  vm ← this;
  match session vm with
  | None => ret tt
  | Some session =>
      let options := DebugSession.options (session_at h session) in
      perform (ManagerStart options);;
      start_answered session (Manager.start manager options)
  end.

Definition restart_answered (session newSession : SessionRef) : M unit :=
  (if bool_decide (newSession ≠ session)
   then sessions_delete session;; sessions_add newSession
   else ret tt);;
  fireDidChange.

Definition restart (manager : Manager.t) : M unit :=
  vm ← this;
  match session vm with
  | None => ret tt
  | Some session =>
      perform (ManagerRestart session);;
      restart_answered session (Manager.restart manager session)
  end.

(** *** Watch expressions *)

Definition watchExpressions (vm : t) : list WatchRef := _watchExpressions vm.

Definition watchExpressions_set (l : list WatchRef) : M unit :=
  λ vm, (tt, with_watchExpressions l vm, []).

(** The part of [addWatchExpression] after [await watchExpression.open()];
    [expression] is the text the expression holds at that time. *)
Definition addWatchExpression_opened (watchExpression : WatchRef) (expression : string)
  : M (option WatchRef) :=
  if negb (truthy_string expression) then ret None
  else
    vm ← this;
    watchExpressions_set (_watchExpressions vm ++ [watchExpression]);;
    fireDidChangeWatchExpressions;;
    ret (Some watchExpression).

(** The class [DebugWatchExpression] is imported from
    [./debug-watch-expression].  [watchExpression] is the object its
    constructor returns, and [open] is its interactive edit step, given by
    the text it leaves in an expression created with the text [expression]. *)
Definition addWatchExpression (watchExpression : WatchRef) (open : string -> string)
    (expression : option string) : M (option WatchRef) :=
  let expression := default "" expression in
  addWatchExpression_opened watchExpression (open expression).

Definition removeWatchExpressions : M unit :=
  vm ← this;
  if bool_decide (length (_watchExpressions vm) ≠ 0)
  then watchExpressions_set [];; fireDidChangeWatchExpressions
  else ret tt.

(** [Array.prototype.indexOf], [None] for -1. *)
Fixpoint indexOf (x : WatchRef) (l : list WatchRef) : option nat :=
  match l with
  | [] => None
  | y :: l => if bool_decide (y = x) then Some 0 else S <$> indexOf x l
  end.

Definition removeWatchExpression (expression : WatchRef) : M unit :=
  vm ← this;
  match indexOf expression (_watchExpressions vm) with
  | Some index =>
      watchExpressions_set (base.delete index (_watchExpressions vm));;
      fireDidChangeWatchExpressions
  | None => ret tt
  end.

(** *** Refresh of the watch expressions

    The function given to [debounce] chains the body of one refresh behind
    the promise [refreshWatchExpressionsQueue].  A body chained behind a
    settled promise starts at once; a body chained behind a pending promise
    starts when that promise settles, which is when the body before it
    returns.  The body walks [_watchExpressions] with the array iterator:
    [next] reads the array as it is at that time. *)

Definition idle : RefreshQueue := {| running := None; pending := 0 |}.

(** The promise of the chain has settled and [chained] bodies wait behind
    it.  A body that finds no watch expression returns without suspending,
    and the next one starts. *)
Fixpoint run_chained (chained : nat) (ws : list WatchRef) : RefreshQueue * list Effect :=
  match chained with
  | 0 => (idle, [])
  | S chained =>
      match ws !! 0 with
      | Some w => ({| running := Some 1; pending := chained |}, [CycleBegin; Evaluate w])
      | None =>
          let '(q, out) := run_chained chained ws in
          (q, CycleBegin :: CycleEnd :: out)
      end
  end.

(** What [debounce] calls when its 50 ms have passed. *)
Definition refreshWatchExpressions : M unit :=
  λ vm,
    let q := refreshWatchExpressionsQueue vm in
    match running q with
    | Some i => (tt, with_queue {| running := Some i; pending := S (pending q) |} vm, [])
    | None =>
        let '(q', out) := run_chained (S (pending q)) (_watchExpressions vm) in
        (tt, with_queue q' vm, out)
    end.

(** How the promise of [watchExpression.evaluate()] settles. *)
Inductive Settled :=
| Fulfilled
| Rejected (e : string).

(** The awaited evaluation settles: the body goes on with the next
    element, or leaves the loop through [catch]; when it returns, the next
    chained body starts. *)
Definition evaluate_settled (r : Settled) : M unit :=
  λ vm,
    let q := refreshWatchExpressionsQueue vm in
    match running q with
    | None => (tt, vm, [])
    | Some i =>
        match r with
        | Fulfilled =>
            match _watchExpressions vm !! i with
            | Some w =>
                (tt, with_queue {| running := Some (S i); pending := pending q |} vm,
                 [Evaluate w])
            | None =>
                let '(q', out) := run_chained (pending q) (_watchExpressions vm) in
                (tt, with_queue q' vm, CycleEnd :: out)
            end
        | Rejected e =>
            let '(q', out) := run_chained (pending q) (_watchExpressions vm) in
            (tt, with_queue q' vm, ConsoleError e :: CycleEnd :: out)
        end
    end.

(** *** The event loop

    Everything runs on one thread: a task runs to its end or to its next
    [await] before another one starts. *)

Inductive Task :=
| TaskRefresh                                       (* the debounce timer fires *)
| TaskSettled (r : Settled)                         (* the awaited evaluation settles *)
| TaskPush (session : SessionRef)
| TaskDelete (session : SessionRef)
| TaskWatchOpened (w : WatchRef) (expression : string)
| TaskRemoveWatchExpression (w : WatchRef)
| TaskRemoveWatchExpressions.

Definition run_task (task : Task) : M unit :=
  match task with
  | TaskRefresh => refreshWatchExpressions
  | TaskSettled r => evaluate_settled r
  | TaskPush s => push s
  | TaskDelete s => delete s;; ret tt
  | TaskWatchOpened w e => addWatchExpression_opened w e;; ret tt
  | TaskRemoveWatchExpression w => removeWatchExpression w
  | TaskRemoveWatchExpressions => removeWatchExpressions
  end.

Fixpoint run_tasks (tasks : list Task) : M unit :=
  match tasks with
  | [] => ret tt
  | task :: tasks => run_task task;; run_tasks tasks
  end.

(** The view-model as the constructor leaves it. *)
Definition new : t :=
  {| _sessions := []; _watchExpressions := []; refreshWatchExpressionsQueue := idle |}.

End DebugViewModel.

Module VM := DebugViewModel.

(** ** Calls of [push] and [delete], observed one by one *)

Inductive SetCall :=
| CallPush (session : SessionRef)
| CallDelete (session : SessionRef).

Record Observation := {
  obs_call : SetCall;
  obs_before : VM.t;
  obs_after : VM.t;
  obs_returned : option bool;     (* [None] for the void result of push *)
  obs_effects : list Effect
}.

Definition observe (call : SetCall) (vm : VM.t) : Observation :=
  match call with
  | CallPush s =>
      let r := VM.push s vm in
      {| obs_call := call; obs_before := vm; obs_after := VM.after r;
         obs_returned := None; obs_effects := VM.effects r |}
  | CallDelete s =>
      let r := VM.delete s vm in
      {| obs_call := call; obs_before := vm; obs_after := VM.after r;
         obs_returned := Some (VM.result r); obs_effects := VM.effects r |}
  end.

Fixpoint observations (calls : list SetCall) (vm : VM.t) : list Observation :=
  match calls with
  | [] => []
  | call :: calls =>
      let o := observe call vm in
      o :: observations calls (obs_after o)
  end.

(** The members of the view's set, without their order. *)
Definition members (vm : VM.t) : gset SessionRef := list_to_set (VM.sessions vm).

Definition alters_membership (o : Observation) : bool :=
  bool_decide (members (obs_after o) ≠ members (obs_before o)).

(** ** Refresh cycles in a log of effects *)




Definition is_running (vm : VM.t) : bool :=
  bool_decide (is_Some (VM.running (VM.refreshWatchExpressionsQueue vm))).

(** ** Sample objects *)

Module Sample.

(** An enum declared as [enum DebugState { Inactive, Initializing, Running,
    Stopped }] numbers its members from 0, and 0 is falsy. *)
Inductive State := StateInactive | StateInitializing | StateRunning | StateStopped.

#[global] Instance State_enum : DebugStateEnum State := {|
  Inactive := StateInactive;
  truthy_state := λ s, match s with StateInactive => false | _ => true end
|}.

Definition A : SessionRef := SessionAt 1.
Definition B : SessionRef := SessionAt 2.
Definition C : SessionRef := SessionAt 3.

Definition session_object (state : State) (s : SessionRef) : DebugSession.t State :=
  {| DebugSession.id := "";
     DebugSession.label := "";
     DebugSession.state := state;
     DebugSession.options := OptionsAt (10 * session_addr s);
     DebugSession.currentThread := None |}.

Definition heap (state : State) : Heap State :=
  {| session_at := session_object state;
     thread_at := λ _, {| DebugThread.currentFrame := None |} |}.

Definition manager (active : option SessionRef) (started : option SessionRef)
  : Manager.t :=
  {| Manager.currentSession := active;
     Manager.start := λ _, started;
     Manager.restart := λ s, s |}.

(** A manager that answers every [restart] with the session [restarted]. *)
Definition manager_restarting (active : option SessionRef) (restarted : SessionRef)
  : Manager.t :=
  {| Manager.currentSession := active;
     Manager.start := λ _, None;
     Manager.restart := λ _, restarted |}.

Definition view (sessions : list SessionRef) : VM.t :=
  VM.with_sessions sessions VM.new.

Definition watching (ws : list WatchRef) : VM.t :=
  VM.with_watchExpressions ws VM.new.

End Sample.

(** * Properties *)

(** ** The insertion-ordered set *)

Section OrderedSetFacts.
Context {A : Type} `{EqDecision A}.
Implicit Types (x y : A) (l : list A).

Lemma set_has_true x l : set_has x l = true ↔ x ∈ l.
Proof. unfold set_has. apply bool_decide_eq_true. Qed.

Lemma set_has_false x l : set_has x l = false ↔ x ∉ l.
Proof. unfold set_has. apply bool_decide_eq_false. Qed.

Lemma filter_other_absent x l : x ∉ l → filter (λ y, y ≠ x) l = l.
Proof.
  induction l as [|y l IH]; intros Hx; [done|].
  apply not_elem_of_cons in Hx as [Hxy Hl].
  rewrite filter_cons_True by congruence. f_equal. auto.
Qed.

Lemma elem_of_set_add x y l : y ∈ set_add x l ↔ y = x ∨ y ∈ l.
Proof.
  unfold set_add. destruct (set_has x l) eqn:E.
  - apply set_has_true in E. split; [auto|]. intros [->|]; done.
  - rewrite elem_of_app, list_elem_of_singleton. tauto.
Qed.

Lemma elem_of_set_delete x y l : y ∈ (set_delete x l).1 ↔ y ≠ x ∧ y ∈ l.
Proof. simpl. by rewrite list_elem_of_filter. Qed.

Lemma set_add_NoDup x l : NoDup l → NoDup (set_add x l).
Proof.
  intros Hl. unfold set_add. destruct (set_has x l) eqn:E; [done|].
  apply set_has_false in E. apply NoDup_app. split_and!; [done| |apply NoDup_singleton].
  intros y Hy Hy'. apply list_elem_of_singleton in Hy'. by subst.
Qed.

Lemma set_delete_NoDup x l : NoDup l → NoDup (set_delete x l).1.
Proof. simpl. apply NoDup_filter. Qed.

(** A later [add] never displaces the first value. *)
Lemma set_first_add x l :
  set_first (set_add x l) = match set_first l with Some f => Some f | None => Some x end.
Proof.
  unfold set_add, set_first. destruct (set_has x l) eqn:E.
  - destruct l as [|f l]; [|done]. apply set_has_true in E. by apply elem_of_nil in E.
  - by destruct l.
Qed.

(** Deleting another value keeps the first value. *)
Lemma set_first_delete_other x f l :
  set_first l = Some f → x ≠ f → set_first (set_delete x l).1 = Some f.
Proof.
  destruct l as [|g l]; [done|]. simpl. intros [= ->] Hx.
  by rewrite filter_cons_True by congruence.
Qed.

End OrderedSetFacts.

Lemma members_set_add (s : SessionRef) (l : list SessionRef) :
  list_to_set (C := gset SessionRef) (set_add s l) = {[s]} ∪ list_to_set l.
Proof.
  apply set_eq. intros y.
  rewrite elem_of_list_to_set, elem_of_set_add, elem_of_union,
    elem_of_singleton, elem_of_list_to_set. done.
Qed.

Lemma members_set_delete (s : SessionRef) (l : list SessionRef) :
  list_to_set (C := gset SessionRef) (set_delete s l).1 = list_to_set l ∖ {[s]}.
Proof.
  apply set_eq. intros y.
  rewrite elem_of_list_to_set, elem_of_set_delete, elem_of_difference,
    elem_of_singleton, elem_of_list_to_set. tauto.
Qed.

(** ** The methods, as equations *)

Lemma with_sessions_same (vm : VM.t) : VM.with_sessions (VM._sessions vm) vm = vm.
Proof. by destruct vm. Qed.

Lemma push_eq (s : SessionRef) (vm : VM.t) :
  VM.push s vm =
    if set_has s (VM.sessions vm) then (tt, vm, [])
    else (tt, VM.with_sessions (VM.sessions vm ++ [s]) vm, [DidChange]).
Proof.
  unfold VM.push, VM.bind, VM.this, VM.sessions_add, VM.sessions, set_add.
  by destruct (set_has s (VM._sessions vm)) eqn:E; simpl; rewrite ?E.
Qed.

Lemma delete_eq (s : SessionRef) (vm : VM.t) :
  VM.delete s vm =
    if set_has s (VM.sessions vm)
    then (true, VM.with_sessions (filter (λ y, y ≠ s) (VM.sessions vm)) vm, [DidChange])
    else (false, vm, []).
Proof.
  unfold VM.delete, VM.bind, VM.sessions_delete, VM.sessions, set_delete.
  destruct (set_has s (VM._sessions vm)) eqn:E; simpl; [done|].
  apply set_has_false in E. rewrite filter_other_absent by done.
  by rewrite with_sessions_same.
Qed.

Lemma push_NoDup (s : SessionRef) (vm : VM.t) :
  NoDup (VM.sessions vm) → NoDup (VM.sessions (VM.after (VM.push s vm))).
Proof.
  intros Hl. rewrite push_eq. destruct (set_has s (VM.sessions vm)) eqn:E; [done|].
  pose proof (set_add_NoDup s _ Hl) as H. unfold set_add in H. by rewrite E in H.
Qed.

Lemma delete_NoDup (s : SessionRef) (vm : VM.t) :
  NoDup (VM.sessions vm) → NoDup (VM.sessions (VM.after (VM.delete s vm))).
Proof.
  intros Hl. rewrite delete_eq. destruct (set_has s (VM.sessions vm)); [|done].
  by apply NoDup_filter.
Qed.

Lemma session_none (vm : VM.t) : VM.session vm = None ↔ VM.sessions vm = [].
Proof. unfold VM.session, set_first. by destruct (VM.sessions vm). Qed.

Lemma currentSession_eq (manager : Manager.t) (vm : VM.t) :
  VM.currentSession manager vm =
    match Manager.currentSession manager with
    | Some active =>
        if bool_decide (active ∈ VM.sessions vm) then Some active
        else head (VM.sessions vm)
    | None => head (VM.sessions vm)
    end.
Proof.
  unfold VM.currentSession, VM.has, VM.session, set_first, set_has, VM.sessions.
  destruct (Manager.currentSession manager) as [active|]; [|done].
  by destruct (bool_decide (active ∈ VM._sessions vm)).
Qed.

Lemma currentSession_none (manager : Manager.t) (vm : VM.t) :
  VM.currentSession manager vm = None ↔ VM.session vm = None.
Proof.
  rewrite currentSession_eq. unfold VM.session, set_first.
  destruct (Manager.currentSession manager) as [active|]; [|done].
  case_bool_decide as Hin; [|done].
  split; [done|]. intros Hnil. apply head_None in Hnil.
  rewrite Hnil in Hin. by apply elem_of_nil in Hin.
Qed.

Lemma occurrences_app (e : Effect) (out1 out2 : list Effect) :
  occurrences e (out1 ++ out2) = occurrences e out1 + occurrences e out2.
Proof. unfold occurrences. by rewrite filter_app, length_app. Qed.

Lemma observe_push (s : SessionRef) (vm : VM.t) :
  let o := observe (CallPush s) vm in
  alters_membership o = negb (bool_decide (s ∈ VM.sessions vm)) ∧
  obs_effects o = (if alters_membership o then [DidChange] else []) ∧
  obs_after o =
    (if alters_membership o then VM.with_sessions (VM.sessions vm ++ [s]) vm else vm).
Proof.
  simpl. unfold alters_membership. simpl. rewrite push_eq. unfold set_has.
  destruct (decide (s ∈ VM.sessions vm)) as [Hin|Hin].
  - rewrite (bool_decide_eq_true_2 _ Hin). simpl.
    by rewrite bool_decide_eq_false_2 by (intros Hne; by apply Hne).
  - rewrite (bool_decide_eq_false_2 _ Hin). simpl.
    rewrite bool_decide_eq_true_2; [done|].
    unfold members, VM.sessions. simpl. intros Heq.
    assert (s ∈ list_to_set (C := gset SessionRef) (VM._sessions vm ++ [s])) as Hs
      by (apply elem_of_list_to_set, elem_of_app; right; apply list_elem_of_singleton; done).
    rewrite Heq in Hs. by apply elem_of_list_to_set in Hs.
Qed.

Lemma observe_delete (s : SessionRef) (vm : VM.t) :
  let o := observe (CallDelete s) vm in
  alters_membership o = bool_decide (s ∈ VM.sessions vm) ∧
  obs_returned o = Some (alters_membership o) ∧
  obs_effects o = (if alters_membership o then [DidChange] else []) ∧
  obs_after o =
    (if alters_membership o
     then VM.with_sessions (filter (λ y, y ≠ s) (VM.sessions vm)) vm else vm) ∧
  s ∉ VM.sessions (obs_after o).
Proof.
  simpl. unfold alters_membership. simpl. rewrite delete_eq. unfold set_has.
  destruct (decide (s ∈ VM.sessions vm)) as [Hin|Hin].
  - rewrite (bool_decide_eq_true_2 _ Hin). simpl.
    rewrite bool_decide_eq_true_2; [split_and!; try done|].
    + unfold VM.sessions. simpl. rewrite list_elem_of_filter. by intros [].
    + unfold members, VM.sessions. simpl. intros Heq.
      assert (s ∈ list_to_set (C := gset SessionRef) (VM._sessions vm)) as Hs
        by by apply elem_of_list_to_set.
      rewrite <- Heq in Hs. apply elem_of_list_to_set in Hs.
      apply list_elem_of_filter in Hs. by destruct Hs.
  - rewrite (bool_decide_eq_false_2 _ Hin). simpl.
    by rewrite bool_decide_eq_false_2 by (intros Hne; by apply Hne).
Qed.

(** ** Session membership *)

(** C2.  In every sequence of [push] and [delete] calls, a call fires
    "changed" exactly once when it alters the membership of the set and
    not at all otherwise: [push] alters it exactly when the session was
    absent, [delete] exactly when it was present, and [delete] returns
    [true] exactly when it removed the session.  Over the whole sequence
    "changed" is fired as often as there are altering calls. *)
Theorem changed_once_per_membership_alteration (calls : list SetCall) (vm : VM.t) :
  Forall (λ o,
      obs_effects o = (if alters_membership o then [DidChange] else []) ∧
      occurrences DidChange (obs_effects o) = (if alters_membership o then 1 else 0) ∧
      obs_after o = (if alters_membership o then obs_after o else obs_before o) ∧
      match obs_call o with
      | CallPush s =>
          alters_membership o = negb (bool_decide (s ∈ VM.sessions (obs_before o)))
      | CallDelete s =>
          obs_returned o = Some (alters_membership o) ∧
          alters_membership o = bool_decide (s ∈ VM.sessions (obs_before o)) ∧
          s ∉ VM.sessions (obs_after o)
      end)
    (observations calls vm) ∧
  occurrences DidChange (concat (obs_effects <$> observations calls vm)) =
    length (filter (λ o, alters_membership o = true) (observations calls vm)).
Proof.
  revert vm. induction calls as [|call calls IH]; intros vm.
  { split; [constructor|done]. }
  destruct (IH (obs_after (observe call vm))) as [IHall IHcount].
  assert (obs_effects (observe call vm)
          = (if alters_membership (observe call vm) then [DidChange] else [])) as Hout.
  { destruct call as [s|s].
    - by destruct (observe_push s vm) as (_ & ? & _).
    - by destruct (observe_delete s vm) as (_ & _ & ? & _). }
  split.
  - cbn [observations]. constructor; [|exact IHall].
    split_and!; [exact Hout|rewrite Hout; by destruct (alters_membership _)| |].
    + destruct call as [s|s].
      * destruct (observe_push s vm) as (_ & _ & Hafter).
        destruct (alters_membership (observe (CallPush s) vm)); [done|exact Hafter].
      * destruct (observe_delete s vm) as (_ & _ & _ & Hafter & _).
        destruct (alters_membership (observe (CallDelete s) vm)); [done|exact Hafter].
    + destruct call as [s|s].
      * by destruct (observe_push s vm) as (? & _).
      * by destruct (observe_delete s vm) as (? & ? & _ & _ & ?).
  - cbn [observations fmap list_fmap concat]. rewrite occurrences_app.
    change (list_fmap _ _ obs_effects ?l) with (obs_effects <$> l). rewrite IHcount.
    rewrite Hout. destruct (alters_membership (observe call vm)) eqn:E.
    + by rewrite filter_cons_True by done.
    + rewrite filter_cons_False; [done|]. by rewrite E.
Qed.

Example push_twice_delete_twice :
  obs_effects <$>
    observations
      [CallPush Sample.A; CallPush Sample.A; CallDelete Sample.B;
       CallDelete Sample.A; CallDelete Sample.A] VM.new =
  [[DidChange]; []; []; [DidChange]; []].
Proof. reflexivity. Qed.

(** ** Current-session resolution *)

(** C3.  [currentSession] is the manager's active session when that session
    is a member of the view's set; otherwise it is the first member in
    insertion order; it is absent exactly when the set is empty. *)
Theorem currentSession_resolution (manager : Manager.t) (vm : VM.t) :
  VM.currentSession manager vm =
    match Manager.currentSession manager with
    | Some active =>
        if bool_decide (active ∈ VM.sessions vm) then Some active
        else head (VM.sessions vm)
    | None => head (VM.sessions vm)
    end ∧
  (VM.currentSession manager vm = None ↔ VM.sessions vm = []).
Proof.
  split; [apply currentSession_eq|].
  by rewrite currentSession_none, session_none.
Qed.

(** C10.  With an empty set, [id] is '-1' and [label] is 'Unknown Session';
    so they are when the first session's id, or label, is the empty string,
    the falsy string.  Otherwise they are the first session's id and label.
    Neither getter raises. *)
Theorem id_label_fallbacks {DebugState : Type} (h : Heap DebugState) (vm : VM.t) :
  match VM.session vm with
  | None => VM.id h vm = Normal "-1" ∧ VM.label h vm = Normal "Unknown Session"
  | Some s =>
      let sid := DebugSession.id (session_at h s) in
      let slabel := DebugSession.label (session_at h s) in
      VM.id h vm = Normal (if bool_decide (sid = "") then "-1" else sid) ∧
      VM.label h vm =
        Normal (if bool_decide (slabel = "") then "Unknown Session" else slabel)
  end.
Proof.
  unfold VM.id, VM.label. destruct (VM.session vm) as [s|]; [|done]. simpl.
  split.
  - by destruct (DebugSession.id (session_at h s)).
  - by destruct (DebugSession.label (session_at h s)).
Qed.

(** C7.  [currentThread] and [currentFrame] never raise.  Without a current
    session both are absent; with a current session that has no selected
    thread both are absent; with a selected thread that has no selected
    frame [currentFrame] is absent; otherwise they are the selected thread
    and its selected frame. *)
Theorem currentThread_currentFrame_degrade_to_none {DebugState : Type}
    (h : Heap DebugState) (manager : Manager.t) (vm : VM.t) :
  match VM.currentSession manager vm with
  | None =>
      VM.currentThread h manager vm = Normal None ∧
      VM.currentFrame h manager vm = Normal None
  | Some s =>
      match DebugSession.currentThread (session_at h s) with
      | None =>
          VM.currentThread h manager vm = Normal None ∧
          VM.currentFrame h manager vm = Normal None
      | Some th =>
          VM.currentThread h manager vm = Normal (Some th) ∧
          VM.currentFrame h manager vm =
            Normal (DebugThread.currentFrame (thread_at h th))
      end
  end.
Proof.
  unfold VM.currentFrame, VM.currentThread.
  destruct (VM.currentSession manager vm) as [s|]; [|done]. simpl.
  by destruct (DebugSession.currentThread (session_at h s)).
Qed.

(** ** Lifecycle wiring *)

Lemma onDidChangeActiveDebugSession_eq (previous current : option SessionRef)
    (vm : VM.t) :
  VM.onDidChangeActiveDebugSession previous current vm =
    (tt, vm, if VM.has previous vm && negb (VM.has current vm) then [DidChange] else []).
Proof.
  unfold VM.onDidChangeActiveDebugSession, VM.bind, VM.this. simpl.
  by destruct (VM.has previous vm && negb (VM.has current vm)).
Qed.

(** C1 (amended).  With the set {A}, while the manager's active session
    changes from B, not a member, to A, [currentSession] is A before and
    after, and the handler of the change fires nothing for this transition
    into membership.  The handler fires "changed", once, exactly when the
    previous active session is a member of the view and the new one is not. *)
Theorem active_session_entering_view_is_not_reported
    (a b : SessionRef) (m_before m_after : Manager.t) (vm : VM.t) :
  VM.sessions vm = [a] →
  b ≠ a →
  Manager.currentSession m_before = Some b →
  Manager.currentSession m_after = Some a →
  VM.currentSession m_before vm = Some a ∧
  VM.currentSession m_after vm = Some a ∧
  VM.onDidChangeActiveDebugSession (Some b) (Some a) vm = (tt, vm, []) ∧
  occurrences DidChange
    (VM.effects (VM.onDidChangeActiveDebugSession (Some b) (Some a) vm)) = 0 ∧
  ∀ previous current vm',
    VM.onDidChangeActiveDebugSession previous current vm' =
      (tt, vm',
       if VM.has previous vm' && negb (VM.has current vm') then [DidChange] else []).
Proof.
  intros Hset Hba Hb Ha.
  assert (VM.has (Some b) vm = false) as Hhas.
  { simpl. apply set_has_false. change (VM._sessions vm) with (VM.sessions vm).
    rewrite Hset. by intros ->%list_elem_of_singleton. }
  split_and!.
  - rewrite currentSession_eq, Hb, Hset.
    rewrite bool_decide_eq_false_2; [done|]. by intros ->%list_elem_of_singleton.
  - rewrite currentSession_eq, Ha, Hset.
    rewrite bool_decide_eq_true_2; [done|]. by apply list_elem_of_singleton.
  - by rewrite onDidChangeActiveDebugSession_eq, Hhas.
  - by rewrite onDidChangeActiveDebugSession_eq, Hhas.
  - apply onDidChangeActiveDebugSession_eq.
Qed.

Lemma active_session_entering_view_witness :
  VM.sessions (Sample.view [Sample.A]) = [Sample.A] ∧
  Sample.B ≠ Sample.A ∧
  VM.onDidChangeActiveDebugSession (Some Sample.B) (Some Sample.A)
    (Sample.view [Sample.A]) = (tt, Sample.view [Sample.A], []).
Proof.
  split; [reflexivity|]. split; [discriminate|].
  apply (active_session_entering_view_is_not_reported Sample.A Sample.B
           (Sample.manager (Some Sample.B) None) (Sample.manager (Some Sample.A) None)
           (Sample.view [Sample.A]));
    [reflexivity|discriminate|reflexivity|reflexivity].
Defined.

(** C1 as stated fails: on the set {A}, with the active session going from
    B to A, the handler does not fire "changed" once. *)
Lemma active_session_entering_view_fires_nothing :
  ¬ (VM.currentSession (Sample.manager (Some Sample.B) None) (Sample.view [Sample.A])
       = Some Sample.A ∧
     VM.currentSession (Sample.manager (Some Sample.A) None) (Sample.view [Sample.A])
       = Some Sample.A ∧
     occurrences DidChange
       (VM.effects
          (VM.onDidChangeActiveDebugSession (Some Sample.B) (Some Sample.A)
             (Sample.view [Sample.A]))) = 1).
Proof. intros (_ & _ & H). vm_compute in H. discriminate. Qed.

(** ** State *)

(** C6 (amended).  [state] never raises.  It is the inactive sentinel when
    [currentSession] is absent, and otherwise the state of the current
    session, replaced by the sentinel when falsy.  So it is the sentinel
    exactly when [currentSession] is absent, or is a session whose own state
    is the sentinel or falsy. *)
Theorem state_inactive_without_current_session
    {DebugState : Type} `{!DebugStateEnum DebugState}
    (h : Heap DebugState) (manager : Manager.t) (vm : VM.t) :
  VM.state h manager vm =
    Normal match VM.currentSession manager vm with
           | None => Inactive
           | Some s =>
               let st := DebugSession.state (session_at h s) in
               if truthy_state st then st else Inactive
           end ∧
  (VM.state h manager vm = Normal Inactive ↔
   match VM.currentSession manager vm with
   | None => True
   | Some s =>
       let st := DebugSession.state (session_at h s) in
       st = Inactive ∨ truthy_state st = false
   end).
Proof.
  unfold VM.state. destruct (VM.currentSession manager vm) as [s|]; simpl; [|done].
  split; [done|].
  destruct (truthy_state (DebugSession.state (session_at h s))) eqn:E.
  - split; [intros [= ->]; by left|]. by intros [->|].
  - split; [by right|done].
Qed.

(** C6 as stated fails: a view whose only session is itself in the inactive
    state has a current session, and [state] is the inactive sentinel. *)
Lemma state_inactive_with_current_session :
  ¬ (VM.state (Sample.heap Sample.StateInactive) (Sample.manager None None)
       (Sample.view [Sample.A]) = Normal Inactive ↔
     VM.currentSession (Sample.manager None None) (Sample.view [Sample.A]) = None).
Proof. intros [H _]. specialize (H eq_refl). vm_compute in H. discriminate. Qed.

(** ** Relaunch and restart *)

Lemma start_eq {DebugState : Type} (h : Heap DebugState) (manager : Manager.t)
    (vm : VM.t) :
  VM.start h manager vm =
    match VM.session vm with
    | None => (tt, vm, [])
    | Some old =>
        let options := DebugSession.options (session_at h old) in
        match Manager.start manager options with
        | Some new =>
            (tt,
             VM.with_sessions (set_add new (set_delete old (VM.sessions vm)).1) vm,
             [ManagerStart options; DidChange])
        | None => (tt, vm, [ManagerStart options])
        end
    end.
Proof.
  unfold VM.start, VM.bind, VM.this. destruct (VM.session vm) as [old|]; [|done].
  simpl. by destruct (Manager.start manager _).
Qed.

Lemma restart_eq (manager : Manager.t) (vm : VM.t) :
  VM.restart manager vm =
    match VM.session vm with
    | None => (tt, vm, [])
    | Some old =>
        let new := Manager.restart manager old in
        (tt,
         (if bool_decide (new = old) then vm
          else VM.with_sessions (set_add new (set_delete old (VM.sessions vm)).1) vm),
         [ManagerRestart old; DidChange])
    end.
Proof.
  unfold VM.restart, VM.bind, VM.this. destruct (VM.session vm) as [old|]; [|done].
  simpl. unfold VM.restart_answered, VM.bind.
  destruct (decide (Manager.restart manager old = old)) as [Heq|Hne].
  - rewrite (bool_decide_eq_false_2 (_ ≠ _)) by (intros Hne; by apply Hne).
    by rewrite (bool_decide_eq_true_2 _ Heq).
  - rewrite (bool_decide_eq_true_2 (_ ≠ _)) by done.
    by rewrite (bool_decide_eq_false_2 _ Hne).
Qed.

Lemma session_is_Some_currentSession (manager : Manager.t) (vm : VM.t) (s : SessionRef) :
  VM.session vm = Some s → is_Some (VM.currentSession manager vm).
Proof.
  intros Hs. apply not_eq_None_Some. rewrite currentSession_none. by rewrite Hs.
Qed.

(** C4 (amended).  [start] does nothing when there is no current session,
    that is, when the set is empty.  Otherwise it asks the manager to start
    a session with the launch options of the first member of the set, the
    value of the getter [session], which is the current session only when
    the manager's active session is no other member.  When the manager
    answers with a session, that first member is removed, the answer is
    added and "changed" is fired once; when it answers with nothing, the
    set is unchanged and nothing is fired. *)
Theorem start_relaunches_first_session {DebugState : Type}
    (h : Heap DebugState) (manager : Manager.t) (vm : VM.t) :
  match VM.session vm with
  | None =>
      VM.currentSession manager vm = None ∧
      VM.start h manager vm = (tt, vm, [])
  | Some old =>
      let options := DebugSession.options (session_at h old) in
      is_Some (VM.currentSession manager vm) ∧
      match Manager.start manager options with
      | Some new =>
          VM.start h manager vm =
            (tt,
             VM.with_sessions (set_add new (set_delete old (VM.sessions vm)).1) vm,
             [ManagerStart options; DidChange]) ∧
          occurrences DidChange (VM.effects (VM.start h manager vm)) = 1 ∧
          new ∈ VM.sessions (VM.after (VM.start h manager vm)) ∧
          (old ∈ VM.sessions (VM.after (VM.start h manager vm)) ↔ new = old)
      | None =>
          VM.start h manager vm = (tt, vm, [ManagerStart options]) ∧
          occurrences DidChange (VM.effects (VM.start h manager vm)) = 0
      end
  end.
Proof.
  rewrite start_eq. destruct (VM.session vm) as [old|] eqn:Hs.
  - simpl. split; [by eapply session_is_Some_currentSession|].
    destruct (Manager.start manager _) as [new|]; [|done].
    split_and!; [done|done| |].
    + unfold VM.after, VM.sessions. simpl. apply elem_of_set_add. by left.
    + unfold VM.after, VM.sessions. simpl.
      rewrite elem_of_set_add, list_elem_of_filter.
      split; [intros [Heq|[Hne _]]; [done|by destruct Hne]|intros ->; by left].
  - split; [|done]. by apply currentSession_none.
Qed.

(** C4 as stated fails: in a view of A and B where the manager's active
    session is B, the current session is B, the manager answers the request
    with the distinct session C, and [start] has neither asked with the
    launch options of B nor replaced B; it asked with those of A and
    replaced A. *)
Lemma start_ignores_current_session :
  VM.currentSession (Sample.manager (Some Sample.B) (Some Sample.C))
    (Sample.view [Sample.A; Sample.B]) = Some Sample.B ∧
  VM.effects
    (VM.start (Sample.heap Sample.StateRunning)
       (Sample.manager (Some Sample.B) (Some Sample.C))
       (Sample.view [Sample.A; Sample.B]))
  ≠ [ManagerStart
       (DebugSession.options (session_at (Sample.heap Sample.StateRunning) Sample.B));
     DidChange] ∧
  VM.sessions
    (VM.after
       (VM.start (Sample.heap Sample.StateRunning)
          (Sample.manager (Some Sample.B) (Some Sample.C))
          (Sample.view [Sample.A; Sample.B])))
  ≠ set_add Sample.C (set_delete Sample.B [Sample.A; Sample.B]).1 ∧
  VM.start (Sample.heap Sample.StateRunning)
    (Sample.manager (Some Sample.B) (Some Sample.C))
    (Sample.view [Sample.A; Sample.B])
  = (tt, Sample.view [Sample.B; Sample.C],
     [ManagerStart
        (DebugSession.options (session_at (Sample.heap Sample.StateRunning) Sample.A));
      DidChange]).
Proof. split_and!; [reflexivity|vm_compute; discriminate..|reflexivity]. Qed.

(** C5 (amended).  [restart] does nothing when there is no current
    session, that is, when the set is empty.  Otherwise it asks the manager
    to restart the first member of the set, the value of the getter
    [session], which is the current session only when the manager's active
    session is no other member.  When the answer is another object, that
    first member is taken out of the set and the answer is put in; when it
    is the same object the set stays as it is.  In both cases "changed" is
    fired exactly once, last. *)
Theorem restart_always_fires_changed (manager : Manager.t) (vm : VM.t) :
  match VM.session vm with
  | None =>
      VM.currentSession manager vm = None ∧
      VM.restart manager vm = (tt, vm, [])
  | Some old =>
      let new := Manager.restart manager old in
      is_Some (VM.currentSession manager vm) ∧
      VM.restart manager vm =
        (tt,
         (if bool_decide (new = old) then vm
          else VM.with_sessions (set_add new (set_delete old (VM.sessions vm)).1) vm),
         [ManagerRestart old; DidChange]) ∧
      occurrences DidChange (VM.effects (VM.restart manager vm)) = 1 ∧
      last (VM.effects (VM.restart manager vm)) = Some DidChange ∧
      new ∈ VM.sessions (VM.after (VM.restart manager vm)) ∧
      (old ∈ VM.sessions (VM.after (VM.restart manager vm)) ↔ new = old) ∧
      ∀ s, s ∈ VM.sessions (VM.after (VM.restart manager vm)) ↔
           s = new ∨ (s ≠ old ∧ s ∈ VM.sessions vm)
  end.
Proof.
  rewrite restart_eq. destruct (VM.session vm) as [old|] eqn:Hs.
  - assert (old ∈ VM.sessions vm) as Hold.
    { unfold VM.session, set_first in Hs.
      destruct (VM.sessions vm) as [|f l]; [done|].
      injection Hs as ->. apply list_elem_of_here. }
    cbv zeta. split; [by eapply session_is_Some_currentSession|].
    split; [done|]. split; [done|]. split; [done|].
    unfold VM.after. cbn [fst snd].
    destruct (decide (Manager.restart manager old = old)) as [Heq|Hne].
    + rewrite (bool_decide_eq_true_2 _ Heq), Heq.
      split_and!; [done|done|].
      intros s. split; [|by intros [->|[_ ?]]].
      intros Hin. destruct (decide (s = old)); [by left|by right].
    + rewrite (bool_decide_eq_false_2 _ Hne).
      unfold VM.sessions at 1 2 3. cbn [VM.with_sessions VM._sessions].
      split_and!.
      * apply elem_of_set_add. by left.
      * rewrite elem_of_set_add, elem_of_set_delete.
        split; [intros [Heq|[Habs _]]; [done|by destruct Habs]|done].
      * intros s. unfold VM.sessions at 1. cbn [VM.with_sessions VM._sessions].
        by rewrite elem_of_set_add, elem_of_set_delete.
  - split; [|done]. by apply currentSession_none.
Qed.

(** C5 as stated fails: in a view of A and B where the manager's active
    session is B, the current session is B, the manager answers the request
    with another object C, and [restart] has neither asked the manager to
    restart B nor replaced B; it asked for A and replaced A.  "changed" is
    fired once all the same. *)
Lemma restart_ignores_current_session :
  VM.currentSession (Sample.manager_restarting (Some Sample.B) Sample.C)
    (Sample.view [Sample.A; Sample.B]) = Some Sample.B ∧
  VM.effects
    (VM.restart (Sample.manager_restarting (Some Sample.B) Sample.C)
       (Sample.view [Sample.A; Sample.B]))
  ≠ [ManagerRestart Sample.B; DidChange] ∧
  VM.sessions
    (VM.after
       (VM.restart (Sample.manager_restarting (Some Sample.B) Sample.C)
          (Sample.view [Sample.A; Sample.B])))
  ≠ set_add Sample.C (set_delete Sample.B [Sample.A; Sample.B]).1 ∧
  VM.restart (Sample.manager_restarting (Some Sample.B) Sample.C)
    (Sample.view [Sample.A; Sample.B])
  = (tt, Sample.view [Sample.B; Sample.C], [ManagerRestart Sample.A; DidChange]).
Proof. split_and!; [reflexivity|vm_compute; discriminate..|reflexivity]. Qed.

(** The scenario of the spec: the manager answers [restart] with the same
    session object; the set is untouched and "changed" is fired. *)
Example restart_same_session :
  VM.restart (Sample.manager None None) (Sample.view [Sample.A]) =
    (tt, Sample.view [Sample.A], [ManagerRestart Sample.A; DidChange]).
Proof. reflexivity. Qed.

(** ** Watch expressions *)

(** C9.  When the edit step leaves the text of the expression empty,
    [addWatchExpression] returns nothing, leaves the list as it is and
    fires nothing.  When the text is not empty, the created expression is
    appended to the list, "watch expressions changed" is fired exactly
    once, and the created expression is returned.  The same holds of the
    part after the edit step on whatever state it resumes in. *)
Theorem addWatchExpression_keeps_only_nonempty
    (w : WatchRef) (open : string → string) (expression : option string) (vm : VM.t) :
  VM.addWatchExpression w open expression vm =
    (if bool_decide (open (default "" expression) = "")
     then (None, vm, [])
     else (Some w, VM.with_watchExpressions (VM.watchExpressions vm ++ [w]) vm,
           [DidChangeWatchExpressions])) ∧
  occurrences DidChangeWatchExpressions
    (VM.effects (VM.addWatchExpression w open expression vm)) =
    (if bool_decide (open (default "" expression) = "") then 0 else 1) ∧
  length (VM.watchExpressions (VM.after (VM.addWatchExpression w open expression vm))) =
    (if bool_decide (open (default "" expression) = "") then 0 else 1)
    + length (VM.watchExpressions vm) ∧
  ∀ text vm',
    VM.addWatchExpression_opened w text vm' =
      (if bool_decide (text = "")
       then (None, vm', [])
       else (Some w, VM.with_watchExpressions (VM.watchExpressions vm' ++ [w]) vm',
             [DidChangeWatchExpressions])).
Proof.
  assert (∀ text vm',
    VM.addWatchExpression_opened w text vm' =
      (if bool_decide (text = "")
       then (None, vm', [])
       else (Some w, VM.with_watchExpressions (VM.watchExpressions vm' ++ [w]) vm',
             [DidChangeWatchExpressions]))) as Hopened.
  { intros text vm'. unfold VM.addWatchExpression_opened. by destruct text. }
  unfold VM.addWatchExpression. rewrite Hopened.
  split_and!; [done| | |done].
  - by case_bool_decide.
  - case_bool_decide; [done|].
    unfold VM.after, VM.watchExpressions. simpl. rewrite length_app. simpl. lia.
Qed.

(** ** Refresh of the watch expressions *)

Lemma run_tasks_app (tasks1 tasks2 : list VM.Task) (vm : VM.t) :
  VM.run_tasks (tasks1 ++ tasks2) vm =
    (tt, VM.after (VM.run_tasks tasks2 (VM.after (VM.run_tasks tasks1 vm))),
     VM.effects (VM.run_tasks tasks1 vm)
       ++ VM.effects (VM.run_tasks tasks2 (VM.after (VM.run_tasks tasks1 vm)))).
Proof.
  revert vm. induction tasks1 as [|task tasks1 IH]; intros vm.
  - simpl. unfold VM.after, VM.effects. simpl.
    by destruct (VM.run_tasks tasks2 vm) as [[[] ?] ?].
  - simpl. unfold VM.bind. destruct (VM.run_task task vm) as [[[] vm1] out1].
    rewrite IH. unfold VM.after, VM.effects.
    destruct (VM.run_tasks tasks1 vm1) as [[[] vm2] out2]. simpl.
    by rewrite app_assoc.
Qed.

Lemma with_queue_same (vm : VM.t) :
  VM.with_queue (VM.refreshWatchExpressionsQueue vm) vm = vm.
Proof. by destruct vm. Qed.

(** A suspended body whose next [n] evaluations are fulfilled evaluates
    the next [n] elements in order. *)
Lemma fulfilled_evaluations_in_order (n i p : nat) (vm : VM.t) :
  i + n ≤ length (VM.watchExpressions vm) →
  VM.run_tasks (replicate n (VM.TaskSettled VM.Fulfilled))
    (VM.with_queue {| VM.running := Some i; VM.pending := p |} vm) =
  (tt, VM.with_queue {| VM.running := Some (i + n); VM.pending := p |} vm,
   Evaluate <$> take n (drop i (VM.watchExpressions vm))).
Proof.
  revert i. induction n as [|n IH]; intros i Hlen.
  - simpl. unfold VM.ret. by rewrite Nat.add_0_r.
  - cbn [replicate VM.run_tasks]. unfold VM.bind.
    destruct (lookup_lt_is_Some_2 (VM.watchExpressions vm) i) as [w Hw]; [lia|].
    cbn [VM.run_task]. unfold VM.evaluate_settled at 1. simpl.
    pose proof Hw as Hw'. unfold VM.watchExpressions in Hw'. rewrite Hw'.
    change (VM.with_queue {| VM.running := Some (S i); VM.pending := p |}
              (VM.with_queue {| VM.running := Some i; VM.pending := p |} vm))
      with (VM.with_queue {| VM.running := Some (S i); VM.pending := p |} vm).
    rewrite IH by lia. replace (S i + n) with (i + S n) by lia.
    by rewrite (drop_S _ _ _ Hw).
Qed.






Lemma after_triple {A : Type} (a : A) (vm : VM.t) (out : list Effect) :
  VM.after (a, vm, out) = vm.
Proof. reflexivity. Qed.

Lemma effects_triple {A : Type} (a : A) (vm : VM.t) (out : list Effect) :
  VM.effects (a, vm, out) = out.
Proof. reflexivity. Qed.







(** A trigger during a cycle waits for the cycle to end; clearing the list
    during a cycle ends the cycle at its next step. *)
Example refresh_waits_for_open_cycle :
  VM.effects
    (VM.run_tasks
       [VM.TaskRefresh; VM.TaskRefresh; VM.TaskSettled VM.Fulfilled;
        VM.TaskRemoveWatchExpressions; VM.TaskSettled VM.Fulfilled]
       (Sample.watching [WatchAt 1; WatchAt 2; WatchAt 3])) =
  [CycleBegin; Evaluate (WatchAt 1); Evaluate (WatchAt 2);
   DidChangeWatchExpressions; CycleEnd; CycleBegin; CycleEnd].
Proof. reflexivity. Qed.


(** * Further properties of the view-model *)

(** ** The session set under its methods *)

Lemma filter_other_length {A : Type} `{EqDecision A} (x : A) (l : list A) :
  NoDup l → x ∈ l → S (length (filter (λ y, y ≠ x) l)) = length l.
Proof.
  induction 1 as [|y l Hy Hl IH]; intros Hx; [by apply elem_of_nil in Hx|].
  destruct (decide (y = x)) as [->|Hne].
  - rewrite filter_cons_False by (intros Hne; by apply Hne).
    by rewrite filter_other_absent.
  - rewrite filter_cons_True by done. simpl. f_equal. apply IH.
    apply elem_of_cons in Hx as [->|]; done.
Qed.

Lemma filter_other_app_last {A : Type} `{EqDecision A} (x : A) (l : list A) :
  x ∉ l → filter (λ y, y ≠ x) (l ++ [x]) = l.
Proof.
  intros Hx. rewrite filter_app, filter_other_absent by done.
  rewrite filter_cons_False by (intros Hne; by apply Hne).
  by rewrite filter_nil, app_nil_r.
Qed.

Lemma init_eq (s : SessionRef) (vm : VM.t) : VM.init (Some s) vm = VM.push s vm.
Proof. reflexivity. Qed.

(** X1.  The set never holds a session twice: [push], [delete], [init], [start]
    and [restart] keep the sessions distinct. *)
Theorem sessions_stay_distinct {DebugState : Type} (h : Heap DebugState)
    (manager : Manager.t) (s : SessionRef) (vm : VM.t) :
  NoDup (VM.sessions vm) →
  NoDup (VM.sessions (VM.after (VM.push s vm))) ∧
  NoDup (VM.sessions (VM.after (VM.delete s vm))) ∧
  NoDup (VM.sessions (VM.after (VM.init (Some s) vm))) ∧
  NoDup (VM.sessions (VM.after (VM.start h manager vm))) ∧
  NoDup (VM.sessions (VM.after (VM.restart manager vm))).
Proof.
  intros Hl. split_and!.
  - by apply push_NoDup.
  - by apply delete_NoDup.
  - rewrite init_eq. by apply push_NoDup.
  - rewrite start_eq. destruct (VM.session vm) as [old|]; [|done]. simpl.
    destruct (Manager.start manager _) as [new|]; [|done].
    apply (set_add_NoDup new), (set_delete_NoDup old), Hl.
  - rewrite restart_eq. destruct (VM.session vm) as [old|]; [|done]. simpl.
    case_bool_decide; [done|].
    apply (set_add_NoDup _), (set_delete_NoDup old), Hl.
Qed.

Lemma sessions_stay_distinct_witness :
  NoDup (VM.sessions (Sample.view [Sample.A; Sample.B])) ∧
  NoDup (VM.sessions
           (VM.after
              (VM.start (Sample.heap Sample.StateRunning)
                 (Sample.manager None (Some Sample.B))
                 (Sample.view [Sample.A; Sample.B])))).
Proof.
  assert (NoDup (VM.sessions (Sample.view [Sample.A; Sample.B]))) as Hl.
  { apply NoDup_cons. split; [|apply NoDup_singleton].
    intros Hin. apply list_elem_of_singleton in Hin. discriminate. }
  split; [exact Hl|].
  apply (sessions_stay_distinct (Sample.heap Sample.StateRunning)
           (Sample.manager None (Some Sample.B)) Sample.A
           (Sample.view [Sample.A; Sample.B]) Hl).
Defined.

(** X2.  [sessionCount] grows by one on a [push] of an absent session, shrinks
    by one on a [delete] of a present one, and is unchanged otherwise. *)
Theorem sessionCount_follows_push_delete (s : SessionRef) (vm : VM.t) :
  NoDup (VM.sessions vm) →
  VM.sessionCount (VM.after (VM.push s vm)) =
    (if bool_decide (s ∈ VM.sessions vm) then VM.sessionCount vm
     else S (VM.sessionCount vm)) ∧
  VM.sessionCount vm =
    (if bool_decide (s ∈ VM.sessions vm)
     then S (VM.sessionCount (VM.after (VM.delete s vm)))
     else VM.sessionCount (VM.after (VM.delete s vm))).
Proof.
  intros Hl. rewrite push_eq, delete_eq. unfold set_has.
  case_bool_decide as Hin; [|split; [|done]].
  - split; [done|]. unfold VM.sessionCount. simpl.
    symmetry. by apply filter_other_length.
  - unfold VM.sessionCount. simpl. rewrite length_app. simpl.
    unfold VM.sessions. lia.
Qed.

Lemma sessionCount_follows_push_delete_witness :
  NoDup (VM.sessions (Sample.view [Sample.A])) ∧
  VM.sessionCount (VM.after (VM.push Sample.B (Sample.view [Sample.A]))) = 2.
Proof.
  assert (NoDup (VM.sessions (Sample.view [Sample.A]))) as Hl
    by apply NoDup_singleton.
  split; [exact Hl|].
  apply (sessionCount_follows_push_delete Sample.B (Sample.view [Sample.A]) Hl).
Defined.

(** X3.  After [push] the session is a member and after [delete] it is not;
    no other session's membership changes; a second [push] or [delete] of
    the same session does nothing and fires nothing. *)
Theorem push_delete_membership (s s' : SessionRef) (vm : VM.t) :
  VM.has (Some s') (VM.after (VM.push s vm)) =
    (bool_decide (s' = s) || VM.has (Some s') vm) ∧
  VM.has (Some s') (VM.after (VM.delete s vm)) =
    (negb (bool_decide (s' = s)) && VM.has (Some s') vm) ∧
  VM.push s (VM.after (VM.push s vm)) = (tt, VM.after (VM.push s vm), []) ∧
  VM.delete s (VM.after (VM.delete s vm)) = (false, VM.after (VM.delete s vm), []).
Proof.
  assert (∀ l, set_has s' (l ++ [s]) = bool_decide (s' = s) || set_has s' l) as Happ.
  { intros l. apply eq_true_iff_eq.
    rewrite orb_true_iff, !set_has_true, bool_decide_eq_true, elem_of_app,
      list_elem_of_singleton. tauto. }
  assert (∀ l, set_has s' (filter (λ y, y ≠ s) l)
               = negb (bool_decide (s' = s)) && set_has s' l) as Hfilter.
  { intros l. apply eq_true_iff_eq.
    rewrite andb_true_iff, negb_true_iff, !set_has_true, bool_decide_eq_false,
      list_elem_of_filter. tauto. }
  split_and!.
  - rewrite push_eq. unfold VM.sessions.
    destruct (set_has s (VM._sessions vm)) eqn:E; [|apply Happ].
    simpl. case_bool_decide as Heq; [|done]. subst s'. by rewrite E.
  - rewrite delete_eq. unfold VM.sessions.
    destruct (set_has s (VM._sessions vm)) eqn:E; [apply Hfilter|].
    simpl. case_bool_decide as Heq; [|done]. subst s'. by rewrite E.
  - rewrite (push_eq s vm). unfold VM.sessions.
    destruct (set_has s (VM._sessions vm)) eqn:E.
    + rewrite after_triple, push_eq. unfold VM.sessions. by rewrite E.
    + rewrite after_triple, push_eq. unfold VM.sessions. simpl.
      assert (set_has s (VM._sessions vm ++ [s]) = true) as ->; [|done].
      apply set_has_true, elem_of_app. right. by apply list_elem_of_singleton.
  - rewrite (delete_eq s vm). unfold VM.sessions.
    destruct (set_has s (VM._sessions vm)) eqn:E.
    + rewrite after_triple, delete_eq. unfold VM.sessions. simpl.
      assert (set_has s (filter (λ y, y ≠ s) (VM._sessions vm)) = false) as ->; [|done].
      apply set_has_false. rewrite list_elem_of_filter. by intros [Hne _].
    + rewrite after_triple, delete_eq. unfold VM.sessions. by rewrite E.
Qed.

(** X4.  Pushing an absent session and deleting it again gives back the view as
    it was; "changed" has been fired twice. *)
Theorem push_then_delete_restores (s : SessionRef) (vm : VM.t) :
  s ∉ VM.sessions vm →
  VM.run_tasks [VM.TaskPush s; VM.TaskDelete s] vm = (tt, vm, [DidChange; DidChange]).
Proof.
  intros Hs. cbn [VM.run_tasks VM.run_task]. unfold VM.bind, VM.ret.
  rewrite push_eq. rewrite (proj2 (set_has_false s _) Hs).
  rewrite delete_eq. unfold VM.sessions at 1. simpl.
  assert (set_has s (VM.sessions vm ++ [s]) = true) as ->.
  { apply set_has_true, elem_of_app. right. by apply list_elem_of_singleton. }
  rewrite filter_other_app_last by done. simpl.
  change (VM.with_sessions (VM.sessions vm) (VM.with_sessions (VM.sessions vm ++ [s]) vm))
    with (VM.with_sessions (VM._sessions vm) vm).
  by rewrite with_sessions_same.
Qed.

Lemma push_then_delete_restores_witness :
  (Sample.B ∉ VM.sessions (Sample.view [Sample.A])) ∧
  VM.run_tasks [VM.TaskPush Sample.B; VM.TaskDelete Sample.B] (Sample.view [Sample.A]) =
    (tt, Sample.view [Sample.A], [DidChange; DidChange]).
Proof.
  assert (Sample.B ∉ VM.sessions (Sample.view [Sample.A])) as Hs.
  { intros Hin. apply list_elem_of_singleton in Hin. discriminate. }
  split; [exact Hs|].
  apply (push_then_delete_restores Sample.B (Sample.view [Sample.A]) Hs).
Defined.

(** X5.  Deleting a member and pushing it again fires "changed" twice and
    leaves it as the last member, behind the others in their order.  On a
    view with distinct sessions the view is as before exactly when the
    session was the last member already. *)
Theorem delete_then_push_moves_last (s : SessionRef) (vm : VM.t) :
  NoDup (VM.sessions vm) →
  s ∈ VM.sessions vm →
  VM.run_tasks [VM.TaskDelete s; VM.TaskPush s] vm =
    (tt, VM.with_sessions (filter (λ y, y ≠ s) (VM.sessions vm) ++ [s]) vm,
     [DidChange; DidChange]) ∧
  last (VM.sessions (VM.after (VM.run_tasks [VM.TaskDelete s; VM.TaskPush s] vm))) =
    Some s ∧
  (VM.after (VM.run_tasks [VM.TaskDelete s; VM.TaskPush s] vm) = vm ↔
   last (VM.sessions vm) = Some s).
Proof.
  intros Hl Hs.
  assert (VM.run_tasks [VM.TaskDelete s; VM.TaskPush s] vm =
            (tt, VM.with_sessions (filter (λ y, y ≠ s) (VM.sessions vm) ++ [s]) vm,
             [DidChange; DidChange])) as Hrun.
  { cbn [VM.run_tasks VM.run_task]. unfold VM.bind, VM.ret.
    rewrite delete_eq. rewrite (proj2 (set_has_true s _) Hs).
    rewrite push_eq. unfold VM.sessions at 1. simpl.
    assert (set_has s (filter (λ y, y ≠ s) (VM.sessions vm)) = false) as ->; [|done].
    apply set_has_false. rewrite list_elem_of_filter. by intros [Hne _]. }
  rewrite Hrun, after_triple. split; [done|].
  unfold VM.sessions at 1. cbn [VM.with_sessions VM._sessions].
  split; [apply last_snoc|]. split.
  - intros Hsame. apply (f_equal VM._sessions) in Hsame.
    cbn [VM.with_sessions VM._sessions] in Hsame.
    change (VM._sessions vm) with (VM.sessions vm) in Hsame.
    rewrite <- Hsame at 1. apply last_snoc.
  - intros Hlast. apply last_Some in Hlast as [front Hfront].
    rewrite Hfront in Hl |- *. apply NoDup_app in Hl as (_ & Hdisjoint & _).
    assert (s ∉ front) as Hfresh.
    { intros Hin. apply (Hdisjoint s Hin). by apply list_elem_of_singleton. }
    rewrite filter_other_app_last by done.
    unfold VM.sessions in Hfront. rewrite <- Hfront. apply with_sessions_same.
Qed.

Lemma delete_then_push_moves_last_witness :
  NoDup (VM.sessions (Sample.view [Sample.A; Sample.B])) ∧
  Sample.A ∈ VM.sessions (Sample.view [Sample.A; Sample.B]) ∧
  VM.run_tasks [VM.TaskDelete Sample.A; VM.TaskPush Sample.A]
    (Sample.view [Sample.A; Sample.B]) =
    (tt, Sample.view [Sample.B; Sample.A], [DidChange; DidChange]).
Proof.
  assert (NoDup (VM.sessions (Sample.view [Sample.A; Sample.B]))) as Hl.
  { apply NoDup_cons. split; [|apply NoDup_singleton].
    intros Hin. apply list_elem_of_singleton in Hin. discriminate. }
  assert (Sample.A ∈ VM.sessions (Sample.view [Sample.A; Sample.B])) as Hs
    by apply list_elem_of_here.
  split; [exact Hl|]. split; [exact Hs|].
  apply (delete_then_push_moves_last Sample.A (Sample.view [Sample.A; Sample.B]) Hl Hs).
Defined.

(** ** The current session and the lifecycle wiring *)

Lemma currentSession_elem (manager : Manager.t) (vm : VM.t) (s : SessionRef) :
  VM.currentSession manager vm = Some s → s ∈ VM.sessions vm.
Proof.
  rewrite currentSession_eq. intros Hcur.
  assert (head (VM.sessions vm) = Some s → s ∈ VM.sessions vm) as Hhead.
  { destruct (VM.sessions vm) as [|f l]; [done|]. intros [= ->]. apply list_elem_of_here. }
  destruct (Manager.currentSession manager) as [active|]; [|by apply Hhead].
  case_bool_decide as Hin; [|by apply Hhead]. by injection Hcur as <-.
Qed.

(** X6.  The current session is always one of the view's own sessions: [has]
    accepts it unless the set is empty, whatever session the manager
    reports as active. *)
Theorem currentSession_is_member (manager : Manager.t) (vm : VM.t) :
  VM.has (VM.currentSession manager vm) vm = negb (bool_decide (VM.sessions vm = [])).
Proof.
  rewrite currentSession_eq. unfold VM.has, VM.sessions, set_has.
  destruct (Manager.currentSession manager) as [active|].
  - destruct (decide (active ∈ VM._sessions vm)) as [Hin|Hin].
    + rewrite !(bool_decide_eq_true_2 _ Hin).
      rewrite bool_decide_eq_false_2; [done|].
      intros Hnil. rewrite Hnil in Hin. by apply elem_of_nil in Hin.
    + rewrite (bool_decide_eq_false_2 _ Hin).
      destruct (VM._sessions vm) as [|f l]; [done|]. simpl.
      rewrite bool_decide_eq_true_2 by apply list_elem_of_here. done.
  - destruct (VM._sessions vm) as [|f l]; [done|]. simpl.
    rewrite bool_decide_eq_true_2 by apply list_elem_of_here. done.
Qed.

(** X7.  [init] on the view as constructed: with a session in the options the
    view holds exactly that session, "changed" is fired once, and that
    session is the current session whatever the manager's active session
    is; without one nothing happens and there is no current session. *)
Theorem init_seeds_current_session (manager : Manager.t) (s : SessionRef) :
  VM.init (Some s) VM.new = (tt, VM.with_sessions [s] VM.new, [DidChange]) ∧
  VM.currentSession manager (VM.after (VM.init (Some s) VM.new)) = Some s ∧
  VM.init None VM.new = (tt, VM.new, []) ∧
  VM.currentSession manager VM.new = None.
Proof.
  split_and!; [done| |done|].
  - rewrite currentSession_eq. simpl.
    destruct (Manager.currentSession manager) as [active|]; [|done].
    case_bool_decide as Hin; [|done].
    apply list_elem_of_singleton in Hin. by subst.
  - rewrite currentSession_eq. simpl.
    by destruct (Manager.currentSession manager) as [active|].
Qed.

(** X8.  Events of the manager about a session that is not in the view: a
    change of that session requests no refresh and fires nothing, a change
    of its breakpoints fires nothing, and the active session moving to it
    fires "changed" exactly when it moves away from a member.  The view is
    left as it is by all three handlers. *)
Theorem events_of_foreign_session (manager : Manager.t) (s : SessionRef)
    (previous : option SessionRef) (uri : string) (vm : VM.t) :
  s ∉ VM.sessions vm →
  VM.onDidChange (Some s) vm = (tt, vm, []) ∧
  VM.onDidChangeBreakpoints manager (Some s) uri vm = (tt, vm, []) ∧
  VM.onDidChangeActiveDebugSession previous (Some s) vm =
    (tt, vm, if VM.has previous vm then [DidChange] else []).
Proof.
  intros Hs.
  assert (VM.has (Some s) vm = false) as Hhas by (by apply set_has_false).
  split_and!.
  - unfold VM.onDidChange, VM.bind, VM.this. simpl in *. by rewrite Hhas.
  - unfold VM.onDidChangeBreakpoints, VM.bind, VM.this. simpl.
    rewrite bool_decide_eq_false_2; [done|].
    intros Hcur. symmetry in Hcur. by apply currentSession_elem in Hcur.
  - rewrite onDidChangeActiveDebugSession_eq, Hhas. simpl.
    by rewrite andb_true_r.
Qed.

Lemma events_of_foreign_session_witness :
  (Sample.C ∉ VM.sessions (Sample.view [Sample.A; Sample.B])) ∧
  VM.onDidChangeBreakpoints (Sample.manager (Some Sample.C) None) (Some Sample.C)
    "file:///a.ts" (Sample.view [Sample.A; Sample.B]) =
    (tt, Sample.view [Sample.A; Sample.B], []).
Proof.
  assert (Sample.C ∉ VM.sessions (Sample.view [Sample.A; Sample.B])) as Hs.
  { intros Hin. apply elem_of_cons in Hin as [Hin|Hin]; [discriminate|].
    apply list_elem_of_singleton in Hin. discriminate. }
  split; [exact Hs|].
  apply (events_of_foreign_session (Sample.manager (Some Sample.C) None) Sample.C
           None "file:///a.ts" (Sample.view [Sample.A; Sample.B]) Hs).
Defined.

(** X9.  A member of the view that is not its current session: a change of the
    session requests a refresh and fires "changed", but a change of its
    breakpoints is not reported. *)
Theorem events_of_member_not_current (manager : Manager.t) (s : SessionRef)
    (uri : string) (vm : VM.t) :
  s ∈ VM.sessions vm →
  VM.currentSession manager vm ≠ Some s →
  VM.onDidChange (Some s) vm = (tt, vm, [RefreshRequested; DidChange]) ∧
  VM.onDidChangeBreakpoints manager (Some s) uri vm = (tt, vm, []).
Proof.
  intros Hs Hcur.
  assert (VM.has (Some s) vm = true) as Hhas by (by apply set_has_true).
  split.
  - unfold VM.onDidChange, VM.bind, VM.this. simpl in *. by rewrite Hhas.
  - unfold VM.onDidChangeBreakpoints, VM.bind, VM.this. simpl.
    rewrite bool_decide_eq_false_2; [done|]. intros Heq. by apply Hcur.
Qed.

Lemma events_of_member_not_current_witness :
  Sample.A ∈ VM.sessions (Sample.view [Sample.A; Sample.B]) ∧
  VM.currentSession (Sample.manager (Some Sample.B) None)
    (Sample.view [Sample.A; Sample.B]) ≠ Some Sample.A ∧
  VM.onDidChangeBreakpoints (Sample.manager (Some Sample.B) None) (Some Sample.A)
    "file:///a.ts" (Sample.view [Sample.A; Sample.B]) =
    (tt, Sample.view [Sample.A; Sample.B], []).
Proof.
  assert (Sample.A ∈ VM.sessions (Sample.view [Sample.A; Sample.B])) as Hs
    by apply list_elem_of_here.
  assert (VM.currentSession (Sample.manager (Some Sample.B) None)
            (Sample.view [Sample.A; Sample.B]) ≠ Some Sample.A) as Hcur
    by (vm_compute; discriminate).
  split; [exact Hs|]. split; [exact Hcur|].
  apply (events_of_member_not_current (Sample.manager (Some Sample.B) None) Sample.A
           "file:///a.ts" (Sample.view [Sample.A; Sample.B]) Hs Hcur).
Defined.

(** X10.  The getter [session] is the oldest member: a [push] never changes it
    once the set is not empty, and on an empty set the pushed session
    becomes it. *)
Theorem session_is_oldest_member (s : SessionRef) (vm : VM.t) :
  VM.session (VM.after (VM.push s vm)) =
    Some (match VM.session vm with Some first => first | None => s end).
Proof.
  rewrite push_eq. unfold VM.session, VM.sessions, set_first.
  destruct (set_has s (VM._sessions vm)) eqn:E; rewrite after_triple.
  - destruct (VM._sessions vm) as [|f l]; [|done].
    apply set_has_true in E. by apply elem_of_nil in E.
  - simpl. by destruct (VM._sessions vm).
Qed.

(** ** Relaunch and restart: where the answer goes *)

Lemma filter_other_head {A : Type} `{EqDecision A} (x : A) (l : list A) :
  NoDup (x :: l) → filter (λ y, y ≠ x) (x :: l) = l.
Proof.
  intros [Hx _]%NoDup_cons.
  rewrite filter_cons_False by (intros Hne; by apply Hne).
  by apply filter_other_absent.
Qed.

(** X11.  [start] puts the answer of the manager behind the other sessions, not
    in the place of the session it relaunched: with other sessions in the
    view, the oldest of them becomes the value of [session].  An answer
    that is already one of the others is not added again, and the view
    loses a session. *)
Theorem start_puts_answer_last {DebugState : Type} (h : Heap DebugState)
    (manager : Manager.t) (vm : VM.t) (old new : SessionRef) (others : list SessionRef) :
  NoDup (VM.sessions vm) →
  VM.sessions vm = old :: others →
  Manager.start manager (DebugSession.options (session_at h old)) = Some new →
  VM.sessions (VM.after (VM.start h manager vm)) =
    (if bool_decide (new ∈ others) then others else others ++ [new]) ∧
  VM.session (VM.after (VM.start h manager vm)) =
    Some (match others with [] => new | next :: _ => next end).
Proof.
  intros Hl Hsessions Hnew.
  assert (VM.sessions (VM.after (VM.start h manager vm)) =
            (if bool_decide (new ∈ others) then others else others ++ [new])) as Hafter.
  { rewrite start_eq. unfold VM.session, set_first. rewrite Hsessions. cbn [head].
    cbv zeta. rewrite Hnew. rewrite after_triple. rewrite Hsessions in Hl.
    unfold VM.sessions. cbn [VM.with_sessions VM._sessions].
    unfold set_delete. cbn [fst]. by rewrite (filter_other_head old others Hl). }
  split; [exact Hafter|]. unfold VM.session, set_first. rewrite Hafter.
  case_bool_decide as Hin; [|by destruct others].
  destruct others as [|next others]; [|done]. by apply elem_of_nil in Hin.
Qed.

Lemma start_puts_answer_last_witness :
  NoDup (VM.sessions (Sample.view [Sample.A; Sample.B])) ∧
  VM.sessions
    (VM.after
       (VM.start (Sample.heap Sample.StateRunning) (Sample.manager None (Some Sample.C))
          (Sample.view [Sample.A; Sample.B]))) = [Sample.B; Sample.C] ∧
  VM.session
    (VM.after
       (VM.start (Sample.heap Sample.StateRunning) (Sample.manager None (Some Sample.C))
          (Sample.view [Sample.A; Sample.B]))) = Some Sample.B.
Proof.
  assert (NoDup (VM.sessions (Sample.view [Sample.A; Sample.B]))) as Hl.
  { apply NoDup_cons. split; [|apply NoDup_singleton].
    intros Hin. apply list_elem_of_singleton in Hin. discriminate. }
  split; [exact Hl|].
  exact (start_puts_answer_last (Sample.heap Sample.StateRunning)
           (Sample.manager None (Some Sample.C)) (Sample.view [Sample.A; Sample.B])
           Sample.A Sample.C [Sample.B] Hl eq_refl eq_refl).
Defined.

(** X12.  [restart] leaves the set as it is when the manager answers with the
    same object, which so keeps its place; another object goes behind the
    other sessions, unless it is one of them already. *)
Theorem restart_puts_other_answer_last (manager : Manager.t) (vm : VM.t)
    (old : SessionRef) (others : list SessionRef) :
  NoDup (VM.sessions vm) →
  VM.sessions vm = old :: others →
  VM.sessions (VM.after (VM.restart manager vm)) =
    (if bool_decide (Manager.restart manager old = old) then old :: others
     else if bool_decide (Manager.restart manager old ∈ others) then others
          else others ++ [Manager.restart manager old]).
Proof.
  intros Hl Hsessions. rewrite restart_eq.
  unfold VM.session at 1, set_first. rewrite Hsessions. cbn [head].
  cbv zeta. rewrite after_triple. rewrite Hsessions in Hl.
  case_bool_decide as Hsame; [done|].
  unfold VM.sessions at 1. cbn [VM.with_sessions VM._sessions].
  unfold set_delete. cbn [fst]. rewrite (filter_other_head old others Hl).
  unfold set_add, set_has. by case_bool_decide.
Qed.

Lemma restart_puts_other_answer_last_witness :
  NoDup (VM.sessions (Sample.view [Sample.A; Sample.B])) ∧
  VM.sessions
    (VM.after (VM.restart (Sample.manager None None) (Sample.view [Sample.A; Sample.B])))
  = [Sample.A; Sample.B].
Proof.
  assert (NoDup (VM.sessions (Sample.view [Sample.A; Sample.B]))) as Hl.
  { apply NoDup_cons. split; [|apply NoDup_singleton].
    intros Hin. apply list_elem_of_singleton in Hin. discriminate. }
  split; [exact Hl|].
  exact (restart_puts_other_answer_last (Sample.manager None None)
           (Sample.view [Sample.A; Sample.B]) Sample.A [Sample.B] Hl eq_refl).
Defined.

(** ** Removing watch expressions *)

Lemma with_watchExpressions_same (vm : VM.t) :
  VM.with_watchExpressions (VM._watchExpressions vm) vm = vm.
Proof. by destruct vm. Qed.

Lemma indexOf_first (w : WatchRef) (before behind : list WatchRef) :
  w ∉ before → VM.indexOf w (before ++ w :: behind) = Some (length before).
Proof.
  induction before as [|x before IH]; intros Hw; simpl.
  - by rewrite bool_decide_eq_true_2.
  - apply not_elem_of_cons in Hw as [Hne Hw].
    rewrite bool_decide_eq_false_2 by congruence. by rewrite IH.
Qed.

Lemma indexOf_absent (w : WatchRef) (l : list WatchRef) :
  w ∉ l → VM.indexOf w l = None.
Proof.
  induction l as [|x l IH]; intros Hw; [done|]. simpl.
  apply not_elem_of_cons in Hw as [Hne Hw].
  rewrite bool_decide_eq_false_2 by congruence. by rewrite IH.
Qed.

Lemma delete_middle (w : WatchRef) (before behind : list WatchRef) :
  base.delete (length before) (before ++ w :: behind) = before ++ behind.
Proof. induction before as [|x before IH]; [done|]. simpl. by f_equal. Qed.

Lemma removeWatchExpressions_eq (vm : VM.t) :
  VM.removeWatchExpressions vm =
    (if bool_decide (VM.watchExpressions vm = []) then (tt, vm, [])
     else (tt, VM.with_watchExpressions [] vm, [DidChangeWatchExpressions])).
Proof.
  unfold VM.removeWatchExpressions, VM.bind, VM.this, VM.watchExpressions.
  destruct (VM._watchExpressions vm) as [|w ws]; [done|].
  cbn [length]. rewrite bool_decide_eq_true_2 by done.
  by rewrite bool_decide_eq_false_2.
Qed.

(** X13.  [removeWatchExpressions] empties the list and fires "watch expressions
    changed" once; on an empty list it does nothing, so a second call in a
    row never fires. *)
Theorem removeWatchExpressions_clears_once (vm : VM.t) :
  VM.removeWatchExpressions vm =
    (if bool_decide (VM.watchExpressions vm = []) then (tt, vm, [])
     else (tt, VM.with_watchExpressions [] vm, [DidChangeWatchExpressions])) ∧
  VM.watchExpressions (VM.after (VM.removeWatchExpressions vm)) = [] ∧
  VM.removeWatchExpressions (VM.after (VM.removeWatchExpressions vm)) =
    (tt, VM.after (VM.removeWatchExpressions vm), []).
Proof.
  rewrite removeWatchExpressions_eq.
  split; [done|]. case_bool_decide as Hempty; rewrite after_triple.
  - split; [done|]. unfold VM.removeWatchExpressions, VM.bind, VM.this.
    unfold VM.watchExpressions in Hempty. by rewrite Hempty.
  - done.
Qed.

(** X14.  [removeWatchExpression] takes out the first entry that is the given
    object, keeps the others in their order, also later entries of the
    same object, and fires "watch expressions changed" once. *)
Theorem removeWatchExpression_removes_first (w : WatchRef)
    (before behind : list WatchRef) (vm : VM.t) :
  VM.watchExpressions vm = before ++ w :: behind →
  w ∉ before →
  VM.removeWatchExpression w vm =
    (tt, VM.with_watchExpressions (before ++ behind) vm, [DidChangeWatchExpressions]).
Proof.
  intros Hws Hw. unfold VM.removeWatchExpression, VM.bind, VM.this.
  unfold VM.watchExpressions in Hws. rewrite Hws.
  rewrite indexOf_first by done. unfold VM.watchExpressions_set.
  by rewrite delete_middle.
Qed.

Lemma removeWatchExpression_removes_first_witness :
  VM.watchExpressions (Sample.watching [WatchAt 2; WatchAt 1; WatchAt 3; WatchAt 1])
    = [WatchAt 2] ++ WatchAt 1 :: [WatchAt 3; WatchAt 1] ∧
  (WatchAt 1 ∉ [WatchAt 2]) ∧
  VM.removeWatchExpression (WatchAt 1)
    (Sample.watching [WatchAt 2; WatchAt 1; WatchAt 3; WatchAt 1]) =
    (tt, Sample.watching [WatchAt 2; WatchAt 3; WatchAt 1], [DidChangeWatchExpressions]).
Proof.
  assert (WatchAt 1 ∉ [WatchAt 2]) as Hw.
  { intros Hin. apply list_elem_of_singleton in Hin. discriminate. }
  split; [reflexivity|]. split; [exact Hw|].
  exact (removeWatchExpression_removes_first (WatchAt 1) [WatchAt 2]
           [WatchAt 3; WatchAt 1]
           (Sample.watching [WatchAt 2; WatchAt 1; WatchAt 3; WatchAt 1]) eq_refl Hw).
Defined.

(** X15.  [removeWatchExpression] of an object that is not in the list does
    nothing and fires nothing. *)
Theorem removeWatchExpression_absent (w : WatchRef) (vm : VM.t) :
  w ∉ VM.watchExpressions vm →
  VM.removeWatchExpression w vm = (tt, vm, []).
Proof.
  intros Hw. unfold VM.removeWatchExpression, VM.bind, VM.this.
  by rewrite indexOf_absent.
Qed.

Lemma removeWatchExpression_absent_witness :
  (WatchAt 9 ∉ VM.watchExpressions (Sample.watching [WatchAt 1])) ∧
  VM.removeWatchExpression (WatchAt 9) (Sample.watching [WatchAt 1]) =
    (tt, Sample.watching [WatchAt 1], []).
Proof.
  assert (WatchAt 9 ∉ VM.watchExpressions (Sample.watching [WatchAt 1])) as Hw.
  { intros Hin. apply list_elem_of_singleton in Hin. discriminate. }
  split; [exact Hw|].
  exact (removeWatchExpression_absent (WatchAt 9) (Sample.watching [WatchAt 1]) Hw).
Defined.

(** X16.  An expression that was added after an edit step with a non-empty text
    and is removed again leaves the view as it was; "watch expressions
    changed" has been fired twice. *)
Theorem add_then_remove_watch_expression (w : WatchRef) (text : string) (vm : VM.t) :
  w ∉ VM.watchExpressions vm →
  text ≠ "" →
  VM.run_tasks [VM.TaskWatchOpened w text; VM.TaskRemoveWatchExpression w] vm =
    (tt, vm, [DidChangeWatchExpressions; DidChangeWatchExpressions]).
Proof.
  intros Hw Htext. cbn [VM.run_tasks VM.run_task]. unfold VM.bind at 1 2 3, VM.ret.
  assert (VM.addWatchExpression_opened w text vm =
            (Some w, VM.with_watchExpressions (VM.watchExpressions vm ++ [w]) vm,
             [DidChangeWatchExpressions])) as ->.
  { unfold VM.addWatchExpression_opened. by destruct text. }
  unfold VM.removeWatchExpression, VM.bind, VM.this.
  cbn [VM.with_watchExpressions VM._watchExpressions].
  rewrite indexOf_first by done. unfold VM.watchExpressions_set.
  rewrite delete_middle, app_nil_r. simpl.
  change (VM.with_watchExpressions (VM.watchExpressions vm)
            (VM.with_watchExpressions (VM.watchExpressions vm ++ [w]) vm))
    with (VM.with_watchExpressions (VM._watchExpressions vm) vm).
  by rewrite with_watchExpressions_same.
Qed.

Lemma add_then_remove_watch_expression_witness :
  (WatchAt 2 ∉ VM.watchExpressions (Sample.watching [WatchAt 1])) ∧
  "x + 1" ≠ "" ∧
  VM.run_tasks [VM.TaskWatchOpened (WatchAt 2) "x + 1";
                VM.TaskRemoveWatchExpression (WatchAt 2)]
    (Sample.watching [WatchAt 1]) =
    (tt, Sample.watching [WatchAt 1],
     [DidChangeWatchExpressions; DidChangeWatchExpressions]).
Proof.
  assert (WatchAt 2 ∉ VM.watchExpressions (Sample.watching [WatchAt 1])) as Hw.
  { intros Hin. apply list_elem_of_singleton in Hin. discriminate. }
  assert ("x + 1" ≠ "") as Htext by discriminate.
  split; [exact Hw|]. split; [exact Htext|].
  exact (add_then_remove_watch_expression (WatchAt 2) "x + 1"
           (Sample.watching [WatchAt 1]) Hw Htext).
Defined.

(** ** The refresh and changes of the list *)

Lemma run_chained_nil (chained : nat) :
  VM.run_chained chained [] =
    (VM.idle, concat (replicate chained [CycleBegin; CycleEnd])).
Proof. induction chained as [|chained IH]; [done|]. simpl. by rewrite IH. Qed.

Lemma run_chained_waiting (chained : nat) (ws : list WatchRef) :
  VM.running (VM.run_chained chained ws).1 = None →
  VM.pending (VM.run_chained chained ws).1 = 0.
Proof.
  induction chained as [|chained IH]; [done|]. simpl.
  destruct (ws !! 0) as [w|]; [done|].
  by destruct (VM.run_chained chained ws) as [q out].
Qed.

Lemma run_task_waiting (task : VM.Task) (vm : VM.t) :
  (VM.running (VM.refreshWatchExpressionsQueue vm) = None →
   VM.pending (VM.refreshWatchExpressionsQueue vm) = 0) →
  VM.running (VM.refreshWatchExpressionsQueue (VM.after (VM.run_task task vm))) = None →
  VM.pending (VM.refreshWatchExpressionsQueue (VM.after (VM.run_task task vm))) = 0.
Proof.
  intros Hvm.
  destruct task as [|r|s|s|w e|w|]; cbn [VM.run_task].
  - unfold VM.refreshWatchExpressions.
    destruct (VM.running (VM.refreshWatchExpressionsQueue vm)) as [i|]; [done|].
    pose proof (run_chained_waiting (S (VM.pending (VM.refreshWatchExpressionsQueue vm)))
                  (VM._watchExpressions vm)) as Hq.
    by destruct (VM.run_chained _ _) as [q out].
  - unfold VM.evaluate_settled.
    destruct (VM.running (VM.refreshWatchExpressionsQueue vm)) as [i|] eqn:Hrun;
      [|rewrite after_triple; intros _; by apply Hvm].
    pose proof (run_chained_waiting (VM.pending (VM.refreshWatchExpressionsQueue vm))
                  (VM._watchExpressions vm)) as Hq.
    destruct r as [|e].
    + destruct (VM._watchExpressions vm !! i) as [w|]; [done|].
      by destruct (VM.run_chained _ _) as [q out].
    + by destruct (VM.run_chained _ _) as [q out].
  - rewrite push_eq. by destruct (set_has s (VM.sessions vm)).
  - unfold VM.bind. rewrite delete_eq. by destruct (set_has s (VM.sessions vm)).
  - unfold VM.bind, VM.addWatchExpression_opened. by destruct (negb (truthy_string e)).
  - unfold VM.removeWatchExpression, VM.bind, VM.this.
    by destruct (VM.indexOf w (VM._watchExpressions vm)).
  - unfold VM.removeWatchExpressions, VM.bind, VM.this.
    by destruct (bool_decide (length (VM._watchExpressions vm) ≠ 0)).
Qed.

Lemma run_tasks_waiting (tasks : list VM.Task) (vm : VM.t) :
  (VM.running (VM.refreshWatchExpressionsQueue vm) = None →
   VM.pending (VM.refreshWatchExpressionsQueue vm) = 0) →
  VM.running (VM.refreshWatchExpressionsQueue (VM.after (VM.run_tasks tasks vm))) = None →
  VM.pending (VM.refreshWatchExpressionsQueue (VM.after (VM.run_tasks tasks vm))) = 0.
Proof.
  revert vm. induction tasks as [|task tasks IH]; intros vm Hvm; [done|].
  cbn [VM.run_tasks]. unfold VM.bind.
  pose proof (run_task_waiting task vm Hvm) as Htask.
  destruct (VM.run_task task vm) as [[[] vm1] out1]. rewrite after_triple in Htask.
  specialize (IH vm1 Htask).
  by destruct (VM.run_tasks tasks vm1) as [[[] vm2] out2].
Qed.

(** X17.  No refresh is left waiting behind a settled promise: after any tasks
    on a new view-model, either the body of a refresh is suspended at an
    evaluation or no body is chained at all. *)
Theorem no_refresh_waits_on_idle_chain (tasks : list VM.Task) :
  is_running (VM.after (VM.run_tasks tasks VM.new)) = true ∨
  VM.pending (VM.refreshWatchExpressionsQueue (VM.after (VM.run_tasks tasks VM.new))) = 0.
Proof.
  pose proof (run_tasks_waiting tasks VM.new (λ _, eq_refl)) as Hwait.
  unfold is_running.
  destruct (VM.running
              (VM.refreshWatchExpressionsQueue (VM.after (VM.run_tasks tasks VM.new))))
    as [i|] eqn:Hrun.
  - left. by apply bool_decide_eq_true_2.
  - right. by apply Hwait.
Qed.

(** X18.  With no watch expression, every trigger on an idle chain runs a body
    that evaluates nothing and returns at once; the chain stays idle. *)
Theorem refresh_of_empty_list (n : nat) (vm : VM.t) :
  VM.refreshWatchExpressionsQueue vm = VM.idle →
  VM.watchExpressions vm = [] →
  VM.run_tasks (replicate n VM.TaskRefresh) vm =
    (tt, vm, concat (replicate n [CycleBegin; CycleEnd])).
Proof.
  intros Hidle Hws. induction n as [|n IH]; [done|].
  cbn [replicate VM.run_tasks VM.run_task]. unfold VM.bind.
  unfold VM.refreshWatchExpressions. rewrite Hidle.
  unfold VM.watchExpressions in Hws. rewrite Hws. simpl.
  rewrite <- Hidle, with_queue_same, IH. done.
Qed.

Lemma refresh_of_empty_list_witness :
  VM.refreshWatchExpressionsQueue VM.new = VM.idle ∧
  VM.watchExpressions VM.new = [] ∧
  VM.run_tasks [VM.TaskRefresh; VM.TaskRefresh] VM.new =
    (tt, VM.new, [CycleBegin; CycleEnd; CycleBegin; CycleEnd]).
Proof.
  split; [reflexivity|]. split; [reflexivity|].
  exact (refresh_of_empty_list 2 VM.new eq_refl eq_refl).
Defined.

(** X19.  Clearing the list while a refresh is suspended ends that refresh when
    the awaited evaluation is fulfilled: no further expression is
    evaluated, and the bodies chained behind it run on the empty list. *)
Theorem clearing_ends_open_cycle (i p : nat) (vm : VM.t) :
  VM.refreshWatchExpressionsQueue vm = {| VM.running := Some i; VM.pending := p |} →
  VM.run_tasks [VM.TaskRemoveWatchExpressions; VM.TaskSettled VM.Fulfilled] vm =
    (tt, VM.with_queue VM.idle (VM.with_watchExpressions [] vm),
     (if bool_decide (VM.watchExpressions vm = []) then []
      else [DidChangeWatchExpressions])
     ++ CycleEnd :: concat (replicate p [CycleBegin; CycleEnd])).
Proof.
  intros Hq. cbn [VM.run_tasks VM.run_task]. unfold VM.bind, VM.ret.
  rewrite removeWatchExpressions_eq. unfold VM.watchExpressions.
  destruct (VM._watchExpressions vm) as [|w ws] eqn:Hws.
  - rewrite bool_decide_eq_true_2 by done.
    unfold VM.evaluate_settled. rewrite Hq, Hws. simpl.
    rewrite run_chained_nil, app_nil_r. simpl. do 2 f_equal.
    destruct vm as [ss ws' q]. simpl in *. by subst.
  - rewrite bool_decide_eq_false_2 by done.
    unfold VM.evaluate_settled. simpl. rewrite Hq. simpl.
    by rewrite run_chained_nil, app_nil_r.
Qed.

Lemma clearing_ends_open_cycle_witness :
  VM.refreshWatchExpressionsQueue
    (VM.with_queue {| VM.running := Some 1; VM.pending := 1 |}
       (Sample.watching [WatchAt 1; WatchAt 2])) =
    {| VM.running := Some 1; VM.pending := 1 |} ∧
  VM.run_tasks [VM.TaskRemoveWatchExpressions; VM.TaskSettled VM.Fulfilled]
    (VM.with_queue {| VM.running := Some 1; VM.pending := 1 |}
       (Sample.watching [WatchAt 1; WatchAt 2])) =
    (tt, VM.new, [DidChangeWatchExpressions; CycleEnd; CycleBegin; CycleEnd]).
Proof.
  split; [reflexivity|].
  exact (clearing_ends_open_cycle 1 1
           (VM.with_queue {| VM.running := Some 1; VM.pending := 1 |}
              (Sample.watching [WatchAt 1; WatchAt 2])) eq_refl).
Defined.

(** X20.  An expression appended while a refresh is suspended at its first
    evaluation is evaluated by that same refresh, after the expressions
    that were in the list when the refresh started. *)
Theorem refresh_evaluates_expression_added_meanwhile
    (first w : WatchRef) (others : list WatchRef) (text : string) (vm : VM.t) :
  VM.refreshWatchExpressionsQueue vm = VM.idle →
  VM.watchExpressions vm = first :: others →
  text ≠ "" →
  VM.run_tasks
    ([VM.TaskRefresh; VM.TaskWatchOpened w text]
       ++ replicate (S (length others)) (VM.TaskSettled VM.Fulfilled)) vm =
    (tt,
     VM.with_queue {| VM.running := Some (S (S (length others))); VM.pending := 0 |}
       (VM.with_watchExpressions (first :: others ++ [w]) vm),
     CycleBegin :: Evaluate first :: DidChangeWatchExpressions
       :: (Evaluate <$> others ++ [w])).
Proof.
  intros Hidle Hws Htext. rewrite run_tasks_app.
  assert (VM.run_tasks [VM.TaskRefresh; VM.TaskWatchOpened w text] vm =
            (tt,
             VM.with_queue {| VM.running := Some 1; VM.pending := 0 |}
               (VM.with_watchExpressions (first :: others ++ [w]) vm),
             [CycleBegin; Evaluate first; DidChangeWatchExpressions])) as ->.
  { cbn [VM.run_tasks VM.run_task]. unfold VM.bind, VM.ret.
    unfold VM.refreshWatchExpressions. rewrite Hidle.
    unfold VM.watchExpressions in Hws. rewrite Hws. simpl.
    unfold VM.addWatchExpression_opened.
    destruct text as [|c text]; [done|]. simpl. by rewrite Hws. }
  rewrite after_triple, effects_triple.
  rewrite (fulfilled_evaluations_in_order (S (length others)) 1 0
             (VM.with_watchExpressions (first :: others ++ [w]) vm))
    by (unfold VM.watchExpressions; simpl; rewrite length_app; simpl; lia).
  rewrite after_triple, effects_triple. do 2 f_equal.
  unfold VM.watchExpressions. simpl. do 3 f_equal.
  destruct others as [|o others]; [done|].
  simpl. do 2 f_equal. apply take_ge. rewrite length_app. simpl. lia.
Qed.

Lemma refresh_evaluates_expression_added_meanwhile_witness :
  VM.refreshWatchExpressionsQueue (Sample.watching [WatchAt 1; WatchAt 2]) = VM.idle ∧
  "y" ≠ "" ∧
  VM.effects
    (VM.run_tasks
       [VM.TaskRefresh; VM.TaskWatchOpened (WatchAt 3) "y";
        VM.TaskSettled VM.Fulfilled; VM.TaskSettled VM.Fulfilled]
       (Sample.watching [WatchAt 1; WatchAt 2])) =
    [CycleBegin; Evaluate (WatchAt 1); DidChangeWatchExpressions;
     Evaluate (WatchAt 2); Evaluate (WatchAt 3)].
Proof.
  assert ("y" ≠ "") as Htext by discriminate.
  split; [reflexivity|]. split; [exact Htext|].
  exact (f_equal VM.effects
           (refresh_evaluates_expression_added_meanwhile (WatchAt 1) (WatchAt 3)
              [WatchAt 2] "y" (Sample.watching [WatchAt 1; WatchAt 2])
              eq_refl eq_refl Htext)).
Defined.

Lemma fulfilled_at_end_of_list (i : nat) (vm : VM.t) :
  length (VM.watchExpressions vm) ≤ i →
  VM.run_tasks [VM.TaskSettled VM.Fulfilled]
    (VM.with_queue {| VM.running := Some i; VM.pending := 0 |} vm) =
    (tt, VM.with_queue VM.idle vm, [CycleEnd]).
Proof.
  intros Hlen. cbn [VM.run_tasks VM.run_task]. unfold VM.bind, VM.ret.
  unfold VM.evaluate_settled. simpl.
  by rewrite (lookup_ge_None_2 (VM._watchExpressions vm) i Hlen).
Qed.

(** X21.  A trigger that arrives while a refresh is suspended is not lost when
    that refresh fails: once the rejected evaluation has been logged and
    the failed refresh has ended, the chained refresh starts at once and
    evaluates every expression, from the first. *)
Theorem failed_refresh_lets_chained_refresh_run (e : string)
    (first : WatchRef) (others : list WatchRef) (vm : VM.t) :
  VM.refreshWatchExpressionsQueue vm = VM.idle →
  VM.watchExpressions vm = first :: others →
  VM.run_tasks
    ([VM.TaskRefresh; VM.TaskRefresh; VM.TaskSettled (VM.Rejected e)]
       ++ replicate (S (length others)) (VM.TaskSettled VM.Fulfilled)) vm =
    (tt, vm,
     [CycleBegin; Evaluate first; ConsoleError e; CycleEnd; CycleBegin]
       ++ (Evaluate <$> first :: others) ++ [CycleEnd]).
Proof.
  intros Hidle Hws. rewrite run_tasks_app.
  assert (VM.run_tasks
            [VM.TaskRefresh; VM.TaskRefresh; VM.TaskSettled (VM.Rejected e)] vm =
            (tt, VM.with_queue {| VM.running := Some 1; VM.pending := 0 |} vm,
             [CycleBegin; Evaluate first; ConsoleError e; CycleEnd;
              CycleBegin; Evaluate first])) as ->.
  { cbn [VM.run_tasks VM.run_task]. unfold VM.bind, VM.ret.
    unfold VM.refreshWatchExpressions at 1. rewrite Hidle.
    unfold VM.watchExpressions in Hws. rewrite Hws. simpl.
    unfold VM.evaluate_settled. simpl. rewrite ?Hws. done. }
  rewrite after_triple, effects_triple.
  rewrite replicate_S_end, run_tasks_app.
  rewrite (fulfilled_evaluations_in_order (length others) 1 0 vm)
    by (rewrite Hws; simpl; lia).
  rewrite !after_triple, !effects_triple.
  rewrite fulfilled_at_end_of_list by (rewrite Hws; simpl; lia).
  rewrite !after_triple, !effects_triple.
  rewrite <- Hidle at 1. rewrite with_queue_same.
  rewrite Hws. simpl. by rewrite drop_0, firstn_all.
Qed.

Lemma failed_refresh_lets_chained_refresh_run_witness :
  VM.refreshWatchExpressionsQueue (Sample.watching [WatchAt 1; WatchAt 2]) = VM.idle ∧
  VM.run_tasks
    [VM.TaskRefresh; VM.TaskRefresh; VM.TaskSettled (VM.Rejected "boom");
     VM.TaskSettled VM.Fulfilled; VM.TaskSettled VM.Fulfilled]
    (Sample.watching [WatchAt 1; WatchAt 2]) =
    (tt, Sample.watching [WatchAt 1; WatchAt 2],
     [CycleBegin; Evaluate (WatchAt 1); ConsoleError "boom"; CycleEnd;
      CycleBegin; Evaluate (WatchAt 1); Evaluate (WatchAt 2); CycleEnd]).
Proof.
  split; [reflexivity|].
  exact (failed_refresh_lets_chained_refresh_run "boom" (WatchAt 1) [WatchAt 2]
           (Sample.watching [WatchAt 1; WatchAt 2]) eq_refl eq_refl).
Defined.
